(** * Telethon [client/chats.py]: chat actions, participant and admin-log iterators

    A shallow embedding of [telethon/client/chats.py].  Python objects that
    the module mutates through a shared reference live in an explicit store;
    code that talks to the client is written in a small monad that threads
    the iterator object and records every request handed to the client. *)

From Stdlib Require Import ZArith Ascii String List Bool Lia.
From stdpp Require Import gmap strings list.

Local Open Scope Z_scope.

(** ** Python values and exceptions *)

Inductive exn : Type :=
| StopAsyncIteration
| AttributeError
| KeyError
| IndexError
| ZeroDivisionError
| OverflowError
| ConnectionError
| CancelledError
| TypeError
| ValueError (msg : string)
| RemoteError (code : Z).      (* anything else the client raises *)

Inductive Result (A : Type) : Type :=
| Ok (a : A)
| Err (e : exn).
Arguments Ok {A} a.
Arguments Err {A} e.

(** A [str] is the [string] of its code points, one character for each;
    text with a code point above 255 is outside the model.  Below 256 the
    upper-case letters are A to Z, U+00C0 to U+00D6 and U+00D8 to U+00DE,
    and each has its lower-case letter 32 places further. *)
Definition lower_char (c : ascii) : ascii :=
  let n := nat_of_ascii c in
  if (((65 <=? n) && (n <=? 90)) || ((192 <=? n) && (n <=? 214))
      || ((216 <=? n) && (n <=? 222)))%nat%bool
  then ascii_of_nat (n + 32) else c.

(** [str.lower] *)
Fixpoint lower (s : string) : string :=
  match s with
  | EmptyString => EmptyString
  | String c t => String (lower_char c) (lower t)
  end.

(** [needle in hay] for two [str]. *)
Fixpoint str_in (needle hay : string) : bool :=
  String.prefix needle hay ||
  match hay with
  | EmptyString => false
  | String _ t => str_in needle t
  end.

(** Truthiness of a [str]. *)
Definition str_truthy (s : string) : bool :=
  match s with EmptyString => false | _ => true end.

(** A value that is either [None] or a [str]. *)
Inductive StrOrNone : Type :=
| PyNone
| PyStr (s : string).

(** The integer nearest to the rational [n / d] ([d <> 0]), the even one
    of the two when it is halfway. *)
Definition round_half_even (n d : Z) : Z :=
  let q := n / d in
  let r := n mod d in
  match (2 * Z.abs r) ?= Z.abs d with
  | Lt => q
  | Gt => q + 1
  | Eq => if Z.even q then q else q + 1
  end.

(** [2 ** k] for [k >= 0], and 1 below. *)
Definition pow2 (k : Z) : Z := 2 ^ Z.max k 0.

(** For [a, b > 0], the [e] with [2 ** e <= a / b < 2 ** (e + 1)]. *)
Definition quotient_exponent (a b : Z) : Z :=
  let e0 := Z.log2 a - Z.log2 b in
  if b * pow2 e0 <=? a * pow2 (- e0) then e0 else e0 - 1.

(** [n / d] on two [int]: a [float], here the pair [(m, u)] standing for
    [m * 2 ** u].  It is the double nearest to the quotient (53 bits, ties
    to the even mantissa, gradual underflow below [2 ** -1022]);
    [OverflowError] when that is [2 ** 1024] or more.  Below [u = 0] the
    mantissa alone is at most [2 ** 53], so only [u >= 0] can overflow. *)
Definition true_divide (n d : Z) : Result (Z * Z) :=
  if d =? 0 then Err ZeroDivisionError
  else if n =? 0 then Ok (0, 0)
  else
    let a := Z.abs n in
    let b := Z.abs d in
    let u := Z.max (quotient_exponent a b) (-1022) - 52 in
    let m := round_half_even (a * pow2 (- u)) (b * pow2 u) in
    if (0 <=? u) && (2 ^ 1024 <=? m * 2 ^ u) then Err OverflowError
    else Ok (Z.sgn n * Z.sgn d * m, u).

(** [round(x)] on a [float]. *)
Definition round_float (x : Z * Z) : Z :=
  let '(m, u) := x in
  if 0 <=? u then m * 2 ^ u else round_half_even m (2 ^ (- u)).

(** [round(n / d)] on two [int]. *)
Definition py_round_truediv (n d : Z) : Result Z :=
  match true_divide n d with
  | Ok x => Ok (round_float x)
  | Err e => Err e
  end.

(** [self.limit] and [self.left] of a [RequestIter]: an integer, or
    [float('inf')] when no limit was given. *)
Inductive Limit : Type :=
| Fin (n : Z)
| Inf.

Definition limit_le0 (l : Limit) : bool :=
  match l with Fin n => n <=? 0 | Inf => false end.

Definition limit_is0 (l : Limit) : bool :=
  match l with Fin n => n =? 0 | Inf => false end.

(** [min(l - off, cap)] *)
Definition limit_sub_min (l : Limit) (off cap : Z) : Z :=
  match l with Fin n => Z.min (n - off) cap | Inf => cap end.

(** [min(l, cap)] *)
Definition limit_min (l : Limit) (cap : Z) : Z :=
  match l with Fin n => Z.min n cap | Inf => cap end.

(** [off > l] *)
Definition gt_limit (off : Z) (l : Limit) : bool :=
  match l with Fin n => n <? off | Inf => false end.

Definition _MAX_PARTICIPANTS_CHUNK_SIZE : Z := 200.
Definition _MAX_ADMIN_LOG_CHUNK_SIZE : Z := 100.

(** ** TL objects used by the module *)

Inductive SendMessageAction : Type :=
| SendMessageTypingAction
| SendMessageChooseContactAction
| SendMessageGamePlayAction
| SendMessageGeoLocationAction
| SendMessageRecordAudioAction
| SendMessageRecordRoundAction
| SendMessageRecordVideoAction
| SendMessageUploadAudioAction (progress : Z)
| SendMessageUploadRoundAction (progress : Z)
| SendMessageUploadVideoAction (progress : Z)
| SendMessageUploadPhotoAction (progress : Z)
| SendMessageUploadDocumentAction (progress : Z)
| SendMessageCancelAction.

(** [hasattr(a, 'progress')] *)
Definition has_progress (a : SendMessageAction) : bool :=
  match a with
  | SendMessageUploadAudioAction _
  | SendMessageUploadRoundAction _
  | SendMessageUploadVideoAction _
  | SendMessageUploadPhotoAction _
  | SendMessageUploadDocumentAction _ => true
  | _ => false
  end.

Definition get_progress (a : SendMessageAction) : option Z :=
  match a with
  | SendMessageUploadAudioAction p
  | SendMessageUploadRoundAction p
  | SendMessageUploadVideoAction p
  | SendMessageUploadPhotoAction p
  | SendMessageUploadDocumentAction p => Some p
  | _ => None
  end.

(** [a.progress = p] on an action that has the field. *)
Definition set_progress (a : SendMessageAction) (p : Z) : SendMessageAction :=
  match a with
  | SendMessageUploadAudioAction _ => SendMessageUploadAudioAction p
  | SendMessageUploadRoundAction _ => SendMessageUploadRoundAction p
  | SendMessageUploadVideoAction _ => SendMessageUploadVideoAction p
  | SendMessageUploadPhotoAction _ => SendMessageUploadPhotoAction p
  | SendMessageUploadDocumentAction _ => SendMessageUploadDocumentAction p
  | other => other
  end.

Inductive InputPeer : Type :=
| InputPeerChannel (channel_id access_hash : Z)
| InputPeerChat (chat_id : Z)
| InputPeerUser (user_id access_hash : Z)
| InputPeerSelf.

Definition is_InputPeerChannel (p : InputPeer) : bool :=
  match p with InputPeerChannel _ _ => true | _ => false end.

(** What callers pass as [entity]: a handle, an id, or an input peer. *)
Inductive Entity : Type :=
| EntityName (s : string)
| EntityId (n : Z)
| EntityInput (p : InputPeer).

(** The [username] attribute of an entity: missing from the object, [None],
    or a string. *)
Inductive Handle : Type :=
| NoAttribute
| HandleNone
| HandleStr (s : string).

Record ChannelParticipant : Type := {
  user_id : Z;
  rank : Z                     (* the rest of the participant, opaque here *)
}.

(** The [participant] attribute that the iterator attaches to an entity. *)
Inductive ParticipantAttr : Type :=
| Unset
| SetNone
| SetTo (p : ChannelParticipant).

Record User : Type := {
  id : Z;
  first_name : option string;
  last_name : option string;
  username : Handle;
  participant : ParticipantAttr
}.

Definition with_participant (u : User) (p : ParticipantAttr) : User :=
  {| id := id u; first_name := first_name u; last_name := last_name u;
     username := username u; participant := p |}.

(** ** The object store

    [SendMessageAction] instances are mutated in place by
    [_ChatAction.progress] and are reachable both from the controller and
    from the request it built, so they live in a store and are named by
    their address. *)

Abbreviation Store := (gmap nat SendMessageAction).

(** Anything a caller can pass as [action]. *)
Inductive PyObject : Type :=
| ObjStr (s : string)
| ObjClass                      (* a class object: [isinstance(o, type)] *)
| ObjAction (l : nat)           (* an instance of a [SendMessageAction] class, by address *)
| ObjTL (subclass_of_id : Z)    (* an instance of some other [TLObject] class *)
| ObjOther.                     (* any other instance *)

Definition SendMessageAction_ID : Z := 0x20b2cc21.

(** [functions.messages.SetTypingRequest(peer, action)]; the action is held
    by reference. *)
Record SetTypingRequest : Type := {
  peer : Entity;
  action_ref : PyObject
}.

(** What goes to the client when a [SetTypingRequest] is invoked: the peer
    and the action as it is in the store at that moment. *)
Record Wire : Type := {
  w_peer : Entity;
  w_action : option SendMessageAction
}.

Definition deref (st : Store) (o : PyObject) : option SendMessageAction :=
  match o with
  | ObjAction l => st !! l
  | _ => None
  end.

Definition serialize (st : Store) (r : SetTypingRequest) : Wire :=
  {| w_peer := peer r; w_action := deref st (action_ref r) |}.

(** [SetTypingRequest(chat, types.SendMessageCancelAction())] *)
Definition cancel_wire (chat : Entity) : Wire :=
  {| w_peer := chat; w_action := Some SendMessageCancelAction |}.

(** ** [_ChatAction] *)

(** The seventeen instances created once in the class body of
    [_ChatAction], at addresses 0 to 16 in the order of the dict literal. *)
Definition _str_mapping_objects : list SendMessageAction :=
  [ SendMessageTypingAction; SendMessageChooseContactAction;
    SendMessageGamePlayAction; SendMessageGeoLocationAction;
    SendMessageRecordAudioAction; SendMessageRecordAudioAction;
    SendMessageRecordRoundAction; SendMessageRecordVideoAction;
    SendMessageUploadAudioAction 1; SendMessageUploadAudioAction 1;
    SendMessageUploadRoundAction 1; SendMessageUploadVideoAction 1;
    SendMessageUploadPhotoAction 1; SendMessageUploadDocumentAction 1;
    SendMessageUploadDocumentAction 1; SendMessageUploadDocumentAction 1;
    SendMessageCancelAction ].

Definition class_store : Store :=
  list_to_map (imap (fun i a => (i, a)) _str_mapping_objects).

Definition _str_mapping_keys : list string :=
  [ "typing"; "contact"; "game"; "location";
    "record-audio"; "record-voice"; "record-round"; "record-video";
    "audio"; "voice"; "round"; "video";
    "photo"; "document"; "file"; "song";
    "cancel" ]%string.

Definition _str_mapping : gmap string nat :=
  list_to_map (imap (fun i k => (k, i)) _str_mapping_keys).

Inductive TaskResult : Type :=
| Returned
| Cancelled
| Failed (e : exn).

(** Where the coroutine [_update] is, as the event loop sees its task. *)
Inductive TaskState : Type :=
| Created                       (* scheduled, body not entered yet *)
| AwaitCall                     (* inside the loop, at [await self._client(self._request)] *)
| AwaitSleep                    (* inside the loop, at [await asyncio.sleep(self._delay)] *)
| AwaitCancelCall               (* inside [except CancelledError], at the cancel request *)
| Done (r : TaskResult).

Record _ChatAction : Type := {
  _chat : Entity;
  _action : PyObject;
  _delay : Z;
  _auto_cancel : bool;
  _request : option SetTypingRequest;
  _task : option nat;           (* index of the task in the loop's task table *)
  _running : bool
}.

(** The store, the requests handed to the client so far (oldest first), and
    the tasks of the event loop. *)
Record World : Type := {
  store : Store;
  sent : list Wire;
  tasks : list TaskState
}.

Definition send (w : World) (x : Wire) : World :=
  {| store := store w; sent := sent w ++ [x]; tasks := tasks w |}.

Definition set_task (w : World) (tid : nat) (s : TaskState) : World :=
  {| store := store w; sent := sent w; tasks := <[tid := s]> (tasks w) |}.

(** [_ChatAction.__init__] *)
Definition ChatAction_init (chat : Entity) (action : PyObject)
  (delay : Z) (auto_cancel : bool) : _ChatAction :=
  {| _chat := chat; _action := action; _delay := delay;
     _auto_cancel := auto_cancel; _request := None; _task := None;
     _running := false |}.

(** [_ChatAction.__aenter__]; [resolved] is what
    [self._client.get_input_entity(self._chat)] answers. *)
Definition __aenter__ (self : _ChatAction) (resolved : Result InputPeer)
  (w : World) : _ChatAction * World * Result unit :=
  match resolved with
  | Err e => (self, w, Err e)
  | Ok p =>
    let chat := EntityInput p in
    let req := {| peer := chat; action_ref := _action self |} in
    ({| _chat := chat; _action := _action self; _delay := _delay self;
        _auto_cancel := _auto_cancel self; _request := Some req;
        _task := Some (length (tasks w)); _running := true |},
     {| store := store w; sent := sent w; tasks := tasks w ++ [Created] |},
     Ok tt)
  end.

(** What the event loop delivers to a task. *)
Inductive Wakeup : Type :=
| Start                         (* first scheduling *)
| Reply (r : Result unit)       (* the pending client call completes *)
| Timer                         (* the pending sleep completes *)
| Cancel.                       (* [task.cancel()] *)

(** Head of [while self._running: await self._client(self._request)]. *)
Definition loop_head (self : _ChatAction) (w : World) : World * TaskState :=
  if _running self then
    match _request self with
    | Some r => (send w (serialize (store w) r), AwaitCall)
    | None => (w, Done (Failed TypeError))
    end
  else (w, Done Returned).

(** The handler [except asyncio.CancelledError:]. *)
Definition on_cancelled (self : _ChatAction) (w : World) : World * TaskState :=
  if _auto_cancel self
  then (send w (cancel_wire (_chat self)), AwaitCancelCall)
  else (w, Done Returned).

(** [_ChatAction._update], one resumption of the coroutine. *)
Definition _update (self : _ChatAction) (s : TaskState) (k : Wakeup)
  (w : World) : World * TaskState :=
  match s, k with
  | Created, Start => loop_head self w
  | Created, Cancel => (w, Done Cancelled)
  | AwaitCall, Reply (Ok _) => (w, AwaitSleep)
  | AwaitCall, Reply (Err ConnectionError) => (w, Done Returned)
  | AwaitCall, Reply (Err CancelledError) => on_cancelled self w
  | AwaitCall, Reply (Err e) => (w, Done (Failed e))
  | AwaitCall, Cancel => on_cancelled self w
  | AwaitSleep, Timer => loop_head self w
  | AwaitSleep, Cancel => on_cancelled self w
  | AwaitCancelCall, Reply (Ok _) => (w, Done Returned)
  | AwaitCancelCall, Reply (Err CancelledError) => (w, Done Cancelled)
  | AwaitCancelCall, Reply (Err e) => (w, Done (Failed e))
  | AwaitCancelCall, Cancel => (w, Done Cancelled)
  | _, _ => (w, s)
  end.

(** The event loop resumes task [tid], whose coroutine is [self._update()]. *)
Definition resume (self : _ChatAction) (tid : nat) (k : Wakeup) (w : World) : World :=
  match tasks w !! tid with
  | Some s => let '(w', s') := _update self s k w in set_task w' tid s'
  | None => w
  end.

(** [await task] on a finished task. *)
Definition await_result (r : TaskResult) : Result unit :=
  match r with
  | Returned => Ok tt
  | Cancelled => Err CancelledError
  | Failed e => Err e
  end.

Definition set_running (self : _ChatAction) (b : bool) : _ChatAction :=
  {| _chat := _chat self; _action := _action self; _delay := _delay self;
     _auto_cancel := _auto_cancel self; _request := _request self;
     _task := _task self; _running := b |}.

Definition clear_task (self : _ChatAction) : _ChatAction :=
  {| _chat := _chat self; _action := _action self; _delay := _delay self;
     _auto_cancel := _auto_cancel self; _request := _request self;
     _task := None; _running := _running self |}.

(** [_ChatAction.__aexit__]; [cancel_reply] is what the client answers to
    the cancel request, should the task send one. *)
Definition __aexit__ (self : _ChatAction) (cancel_reply : Result unit)
  (w : World) : _ChatAction * World * Result unit :=
  let self := set_running self false in
  match _task self with
  | None => (self, w, Ok tt)
  | Some tid =>
    let w := resume self tid Cancel w in
    let w := match tasks w !! tid with
             | Some AwaitCancelCall => resume self tid (Reply cancel_reply) w
             | _ => w
             end in
    match tasks w !! tid with
    | Some (Done r) =>
      match await_result r with
      | Ok _ | Err CancelledError => (clear_task self, w, Ok tt)
      | Err e => (self, w, Err e)
      end
    | _ => (self, w, Err AttributeError)
    end
  end.

(** [_ChatAction.progress] *)
Definition progress (self : _ChatAction) (current total : Z) (st : Store)
  : Result Store :=
  match _action self with
  | ObjAction l =>
    match st !! l with
    | Some a =>
      if has_progress a then
        match py_round_truediv current total with
        | Ok v => Ok (<[l := set_progress a (100 * v)]> st)
        | Err e => Err e
        end
      else Ok st
    | None => Ok st
    end
  | _ => Ok st
  end.

(** The percentage of [current] in [total], [round(100 * current / total)]:
    what the specification gives for the progress field.  Not taken from
    the code, and compared with it below. *)
Definition percent (current total : Z) : Z :=
  round_half_even (100 * current) total.

(** ** [ChatMethods.action] *)

Inductive ActionResult : Type :=
| Raises (e : exn)
| Invokes (x : Wire)            (* [return self(SetTypingRequest(...))] *)
| Manager (c : _ChatAction).    (* [return _ChatAction(...)] *)

Definition dquote : string := String (ascii_of_nat 34) EmptyString.

(** [str(o)], as far as the model knows it. *)
Definition obj_str (o : PyObject) : string :=
  match o with
  | ObjStr s => s
  | ObjClass => "<class>"
  | ObjAction _ => "SendMessageAction"
  | ObjTL _ => "TLObject"
  | ObjOther => "<object>"
  end%string.

Definition no_such_action (s : string) : exn :=
  ValueError ("No such action " ++ dquote ++ s ++ dquote)%string.

Definition must_pass_instance : exn :=
  ValueError "You must pass an instance, not the class"%string.

Definition cannot_use (o : PyObject) : exn :=
  ValueError ("Cannot use " ++ obj_str o ++ " as action")%string.

(** The first [if]/[elif] of [action]: the object to use, or the error. *)
Definition resolve_action (action : PyObject) : Result PyObject :=
  match action with
  | ObjStr s =>
    match _str_mapping !! lower s with
    | Some l => Ok (ObjAction l)
    | None => Err (no_such_action s)
    end
  | ObjClass => Err must_pass_instance
  | ObjOther => Err (cannot_use action)
  | ObjTL sid =>
    if sid =? SendMessageAction_ID then Ok action else Err (cannot_use action)
  | ObjAction _ => Ok action
  end.

Definition action (st : Store) (entity : Entity) (action : PyObject)
  (delay : Z) (auto_cancel : bool) : ActionResult :=
  match resolve_action action with
  | Err e => Raises e
  | Ok a =>
    match deref st a with
    | Some SendMessageCancelAction => Invokes (cancel_wire entity)
    | _ => Manager (ChatAction_init entity a delay auto_cancel)
    end
  end.

(** ** Requests and responses of the two iterators *)

Inductive ChannelParticipantsFilter : Type :=
| ChannelParticipantsRecent
| ChannelParticipantsAdmins
| ChannelParticipantsBots
| ChannelParticipantsKicked (q : string)
| ChannelParticipantsBanned (q : string)
| ChannelParticipantsSearch (q : string)
| ChannelParticipantsContacts (q : string).

(** The classes of the filters, for callers that pass the class itself. *)
Inductive FilterClass : Type :=
| RecentClass | AdminsClass | BotsClass
| KickedClass | BannedClass | SearchClass | ContactsClass.

(** The [filter] argument: [None], a class, or an instance. *)
Inductive FilterArg : Type :=
| FilterNone
| FilterType (c : FilterClass)
| FilterValue (f : ChannelParticipantsFilter).

Record GetParticipantsRequest : Type := {
  req_channel : InputPeer;
  req_filter : ChannelParticipantsFilter;
  req_offset : Z;
  req_limit : Z;
  req_hash : Z
}.

(** [channels.ChannelParticipants] *)
Record ChannelParticipants : Type := {
  participants : list ChannelParticipant;
  users : list User
}.

(** The part of [messages.ChatFull] read after [GetFullChannelRequest]. *)
Record ChannelFull : Type := {
  participants_count : option Z
}.

(** [full.full_chat.participants] of a small group. *)
Inductive ChatParticipantsInfo : Type :=
| ChatParticipantsForbidden
| ChatParticipants (l : list ChannelParticipant).

(** The part of [messages.ChatFull] read after [GetFullChatRequest]. *)
Record ChatFull : Type := {
  chat_participants : ChatParticipantsInfo;
  chat_users : list User
}.

Record ChannelAdminLogEventsFilter : Type := {
  f_join : option bool; f_leave : option bool; f_invite : option bool;
  f_ban : option bool; f_unban : option bool;
  f_kick : option bool; f_unkick : option bool;
  f_promote : option bool; f_demote : option bool;
  f_info : option bool; f_settings : option bool; f_pinned : option bool;
  f_edit : option bool; f_delete : option bool
}.

Record GetAdminLogRequest : Type := {
  log_channel : InputPeer;
  q : string;
  min_id : Z;
  max_id : Z;
  log_limit : Z;
  events_filter : option ChannelAdminLogEventsFilter;
  admins : option (list InputPeer)
}.

(** An entity of [r.users] or [r.chats]. *)
Inductive Peer : Type :=
| PeerUser (u : User)
| PeerChat (chat_id : Z) (title : string).

(** A message inside an admin-log event; [finished] is what
    [_finish_init(client, entities, input_chat)] recorded on it. *)
Record Message : Type := {
  msg_id : Z;
  finished : option (gmap Z Peer * option InputPeer)
}.

Inductive ChannelAdminLogEventAction : Type :=
| ChannelAdminLogEventActionEditMessage (prev_message new_message : Message)
| ChannelAdminLogEventActionDeleteMessage (message : Message)
| ChannelAdminLogEventActionOther (tag : Z).

Record ChannelAdminLogEvent : Type := {
  ev_id : Z;
  ev_user_id : Z;
  ev_action : ChannelAdminLogEventAction
}.

(** [channels.AdminLogResults] *)
Record AdminLogResults : Type := {
  events : list ChannelAdminLogEvent;
  log_chats : list Peer;
  log_users : list Peer
}.

(** Modelled from the spec: [custom.AdminLogEvent(ev, entities)], whose
    class is outside this file, wraps the raw event together with the
    lookup table. *)
Record AdminLogEvent : Type := {
  original : ChannelAdminLogEvent;
  entities : gmap Z Peer
}.

(** ** Calls to the client

    Everything the iterators ask of [self.client], indexed by the type of
    the answer.  Any of them can raise. *)

Inductive clientE : Type -> Type :=
| get_input_entity (e : Entity) : clientE InputPeer
| get_entity (p : InputPeer) : clientE User
| GetFullChannelRequest (p : InputPeer) : clientE ChannelFull
| GetFullChatRequest (chat_id : Z) : clientE ChatFull
| Batch (rs : list GetParticipantsRequest) : clientE (list ChannelParticipants)
| Invoke (r : GetAdminLogRequest) : clientE AdminLogResults.

(** A computation that calls the client and ends with a value. *)
Inductive Prog (A : Type) : Type :=
| Ret (a : A)
| Vis {X : Type} (e : clientE X) (k : Result X -> Prog A).
Arguments Ret {A} a.
Arguments Vis {A X} e k.

Fixpoint pbind {A B : Type} (p : Prog A) (f : A -> Prog B) : Prog B :=
  match p with
  | Ret a => f a
  | Vis e k => Vis e (fun r => pbind (k r) f)
  end.

(** Methods of an object of type [S]: they read and update the object, call
    the client, and return or raise.  The object keeps what was assigned
    before a raise. *)
Definition M (S A : Type) : Type := S -> Prog (S * Result A).

Definition ret {S A} (a : A) : M S A := fun s => Ret (s, Ok a).
Definition raise {S A} (e : exn) : M S A := fun s => Ret (s, Err e).
Definition get {S} : M S S := fun s => Ret (s, Ok s).
Definition modify {S} (f : S -> S) : M S unit := fun s => Ret (f s, Ok tt).
Definition pure_step {S A} (f : S -> S * Result A) : M S A := fun s => Ret (f s).
Definition await {S X} (e : clientE X) : M S X := fun s => Vis e (fun r => Ret (s, r)).

Definition bind {S A B} (m : M S A) (f : A -> M S B) : M S B :=
  fun s => pbind (m s) (fun '(s', r) =>
    match r with
    | Ok a => f a s'
    | Err e => Ret (s', Err e)
    end).

Declare Scope py_scope.
Delimit Scope py_scope with py.
Notation "x <- c1 ;; c2" := (bind c1 (fun x => c2))
  (at level 100, c1 at next level, right associativity) : py_scope.
Notation "c1 ;; c2" := (bind c1 (fun _ => c2))
  (at level 100, right associativity) : py_scope.

(** One call as it appears in a trace. *)
Inductive Call : Type :=
| MkCall {X : Type} (e : clientE X).

(** A client: it answers each call and may change while doing so. *)
Definition Client (C : Type) : Type := forall X, clientE X -> C -> C * Result X.

(** Runs a computation against a client; the calls made, in order. *)
Fixpoint run {C A : Type} (h : Client C) (p : Prog A) (c : C) : C * list Call * A :=
  match p with
  | Ret a => (c, [], a)
  | Vis e k =>
    let '(c1, r) := h _ e c in
    let '(c2, t, a) := run h (k r) c1 in
    (c2, MkCall e :: t, a)
  end.

(** [{key(x): x for x in xs}]: later entries replace earlier ones. *)
Definition py_dict {V : Type} (key : V -> Z) (xs : list V) : gmap Z V :=
  fold_left (fun m x => <[key x := x]> m) xs ∅.

(** [min(xs, default=0)] *)
Definition min_default0 (xs : list Z) : Z :=
  match xs with
  | [] => 0
  | x :: t => fold_left Z.min t x
  end.

Definition ascii_lowercase : string := "abcdefghijklmnopqrstuvwxyz".

(** Iterating over a [str] yields its one-character strings, one for each
    code point. *)
Fixpoint symbols (s : string) : list string :=
  match s with
  | EmptyString => []
  | String c t => String c EmptyString :: symbols t
  end.

(** ** [_ParticipantsIter] *)

Module _ParticipantsIter.

(** The closure stored in [self.filter_entity]. *)
Inductive FilterEntity : Type :=
| MatchSearch (search : string)   (* the two-clause lambda, with the lowered search *)
| MatchAll.                       (* [lambda ent: True] *)

(** The iterator object: the attributes of [RequestIter] that the methods
    use, and those [_init] adds. *)
Record Iter : Type := {
  limit : Limit;
  left : Limit;
  buffer : list User;
  total : option Z;
  filter_entity : FilterEntity;
  requests : list GetParticipantsRequest;
  seen : gset Z
}.

Definition set_buffer (b : list User) (s : Iter) : Iter :=
  {| limit := limit s; left := left s; buffer := b; total := total s;
     filter_entity := filter_entity s; requests := requests s; seen := seen s |}.

Definition set_total (t : option Z) (s : Iter) : Iter :=
  {| limit := limit s; left := left s; buffer := buffer s; total := t;
     filter_entity := filter_entity s; requests := requests s; seen := seen s |}.

Definition set_filter_entity (f : FilterEntity) (s : Iter) : Iter :=
  {| limit := limit s; left := left s; buffer := buffer s; total := total s;
     filter_entity := f; requests := requests s; seen := seen s |}.

Definition set_requests (r : list GetParticipantsRequest) (s : Iter) : Iter :=
  {| limit := limit s; left := left s; buffer := buffer s; total := total s;
     filter_entity := filter_entity s; requests := r; seen := seen s |}.

Definition set_seen (x : gset Z) (s : Iter) : Iter :=
  {| limit := limit s; left := left s; buffer := buffer s; total := total s;
     filter_entity := filter_entity s; requests := requests s; seen := x |}.

Definition with_offset (r : GetParticipantsRequest) (o : Z) : GetParticipantsRequest :=
  {| req_channel := req_channel r; req_filter := req_filter r; req_offset := o;
     req_limit := req_limit r; req_hash := req_hash r |}.

Definition with_limit (r : GetParticipantsRequest) (l : Z) : GetParticipantsRequest :=
  {| req_channel := req_channel r; req_filter := req_filter r;
     req_offset := req_offset r; req_limit := l; req_hash := req_hash r |}.

(** [filter('')] or [filter()] for a filter passed as a class. *)
Definition instantiate (c : FilterClass) : ChannelParticipantsFilter :=
  match c with
  | BannedClass => ChannelParticipantsBanned ""
  | KickedClass => ChannelParticipantsKicked ""
  | SearchClass => ChannelParticipantsSearch ""
  | ContactsClass => ChannelParticipantsContacts ""
  | RecentClass => ChannelParticipantsRecent
  | AdminsClass => ChannelParticipantsAdmins
  | BotsClass => ChannelParticipantsBots
  end.

Definition resolve_filter (f : FilterArg) : option ChannelParticipantsFilter :=
  match f with
  | FilterNone => None
  | FilterType c => Some (instantiate c)
  | FilterValue v => Some v
  end.

(** [getattr(ent, 'username', '')] *)
Definition getattr_username (ent : User) : StrOrNone :=
  match username ent with
  | NoAttribute => PyStr ""
  | HandleNone => PyNone
  | HandleStr s => PyStr s
  end.

(** [x or None] *)
Definition or_None (x : StrOrNone) : StrOrNone :=
  match x with
  | PyStr s => if str_truthy s then PyStr s else PyNone
  | PyNone => PyNone
  end.

(** [x.lower()] *)
Definition method_lower (x : StrOrNone) : Result string :=
  match x with
  | PyStr s => Ok (lower s)
  | PyNone => Err AttributeError
  end.

(** The request built for a channel: offset 0, the chunk size, hash 0. *)
Definition first_request (entity : InputPeer) (f : ChannelParticipantsFilter)
  : GetParticipantsRequest :=
  {| req_channel := entity; req_filter := f; req_offset := 0;
     req_limit := _MAX_PARTICIPANTS_CHUNK_SIZE; req_hash := 0 |}.

Section WithUtils.

(** [utils.get_display_name], which lives outside this file. *)
Variable get_display_name : User -> string.

(** Calling [self.filter_entity(ent)]. *)
Definition call_filter_entity (f : FilterEntity) (ent : User) : Result bool :=
  match f with
  | MatchAll => Ok true
  | MatchSearch search =>
    if str_in search (lower (get_display_name ent)) then Ok true
    else match method_lower (or_None (getattr_username ent)) with
         | Ok s => Ok (str_in search s)
         | Err e => Err e
         end
  end.

(** The loop over [full.full_chat.participants.participants] of a small
    group.  [users] is the dict; [acc] are the entities appended so far.
    An entity appended twice is one object, so attaching a participant to
    it shows in every place it is held. *)
Fixpoint chat_loop (f : FilterEntity) (users : gmap Z User)
  (ps : list ChannelParticipant) (acc : list User) : list User * Result unit :=
  match ps with
  | [] => (acc, Ok tt)
  | p :: rest =>
    match users !! user_id p with
    | None => (acc, Err KeyError)
    | Some user =>
      match call_filter_entity f user with
      | Err e => (acc, Err e)
      | Ok false => chat_loop f users rest acc
      | Ok true =>
        let user' := with_participant user (SetTo p) in
        chat_loop f (<[user_id p := user']> users) rest
          (map (fun u => if id u =? user_id p then user' else u) acc ++ [user'])
      end
    end
  end.

(** The loop over [participants.participants] of one channel response. *)
Fixpoint channel_loop (users : gmap Z User) (ps : list ChannelParticipant)
  (s : Iter) : Iter * Result unit :=
  match ps with
  | [] => (s, Ok tt)
  | p :: rest =>
    match users !! user_id p with
    | None => (s, Err KeyError)
    | Some user =>
      match call_filter_entity (filter_entity s) user with
      | Err e => (s, Err e)
      | Ok false => channel_loop users rest s
      | Ok true =>
        if decide (id user ∈ seen s) then channel_loop users rest s
        else
          let s := set_seen ({[user_id p]} ∪ seen s) s in
          let s := set_buffer (buffer s ++ [with_participant user (SetTo p)]) s in
          channel_loop users rest s
      end
    end
  end.

(** [for i in reversed(range(n))], over the responses of one batch. *)
Fixpoint results_loop (results : list ChannelParticipants) (n : nat)
  (s : Iter) : Iter * Result unit :=
  match n with
  | O => (s, Ok tt)
  | S i =>
    match results !! i with
    | None => (s, Err IndexError)
    | Some part =>
      match users part with
      | [] => results_loop results i (set_requests (delete i (requests s)) s)
      | _ =>
        let grow r := with_offset r (req_offset r + Z.of_nat (length (participants part))) in
        let s := set_requests (alter grow i (requests s)) s in
        match channel_loop (py_dict id (users part)) (participants part) s with
        | (s, Ok _) => results_loop results i s
        | (s, Err e) => (s, Err e)
        end
      end
    end
  end.

Local Open Scope py_scope.

(** [_ParticipantsIter._init]; the result is [true] for [return True] and
    [false] when the method falls off its end. *)
Definition _init (entity : Entity) (filter : FilterArg) (search : string)
  (aggressive : bool) : M Iter bool :=
  let filter := resolve_filter filter in
  entity <- await (get_input_entity entity) ;;
  let local := str_truthy search
               && (bool_decide (is_Some filter) || negb (is_InputPeerChannel entity)) in
  let search := if local then lower search else search in
  modify (set_filter_entity (if local then MatchSearch search else MatchAll)) ;;
  modify (set_requests []) ;;
  match entity with
  | InputPeerChannel _ _ =>
    full <- await (GetFullChannelRequest entity) ;;
    modify (set_total (participants_count full)) ;;
    self <- get ;;
    if limit_le0 (limit self) then raise StopAsyncIteration
    else
      modify (set_seen ∅) ;;
      if aggressive && negb (bool_decide (is_Some filter)) then
        modify (fun s => set_requests
          (requests s ++
           map (fun x => first_request entity (ChannelParticipantsSearch x))
               (symbols (if str_truthy search then search else ascii_lowercase))) s) ;;
        ret false
      else
        modify (fun s => set_requests
          (requests s ++
           [first_request entity
              (match filter with
               | Some f => f
               | None => ChannelParticipantsSearch search
               end)]) s) ;;
        ret false
  | InputPeerChat chat_id =>
    full <- await (GetFullChatRequest chat_id) ;;
    match chat_participants full with
    | ChatParticipantsForbidden =>
      modify (set_total (Some 0)) ;;
      raise StopAsyncIteration
    | ChatParticipants ps =>
      modify (set_total (Some (Z.of_nat (length ps)))) ;;
      pure_step (fun s =>
        let '(acc, r) := chat_loop (filter_entity s) (py_dict id (chat_users full)) ps [] in
        (set_buffer (buffer s ++ acc) s, r)) ;;
      ret true
    end
  | _ =>
    modify (set_total (Some 1)) ;;
    self <- get ;;
    if negb (limit_is0 (limit self)) then
      user <- await (get_entity entity) ;;
      ok <- pure_step (fun s => (s, call_filter_entity (filter_entity s) user)) ;;
      if ok : bool then
        modify (fun s => set_buffer (buffer s ++ [with_participant user SetNone]) s) ;;
        ret true
      else ret true
    else ret true
  end.

(** [_ParticipantsIter._load_next_chunk] *)
Definition _load_next_chunk : M Iter bool :=
  self <- get ;;
  match requests self with
  | [] => ret true
  | r0 :: _ =>
    modify (fun s => set_requests
      (alter (fun r => with_limit r
                (limit_sub_min (limit s) (req_offset r) _MAX_PARTICIPANTS_CHUNK_SIZE))
             0%nat (requests s)) s) ;;
    if gt_limit (req_offset r0) (limit self) then ret true
    else
      self <- get ;;
      results <- await (Batch (requests self)) ;;
      pure_step (results_loop results (length (requests self))) ;;
      ret false
  end.

End WithUtils.

End _ParticipantsIter.

(** ** [_AdminLogIter] *)

Module _AdminLogIter.

(** The [admins] argument: [None], one entity, or a list of them. *)
Inductive AdminsArg : Type :=
| AdminsNone
| AdminsOne (e : Entity)
| AdminsList (l : list Entity).

Record Iter : Type := {
  limit : Limit;
  left : Limit;
  buffer : list AdminLogEvent;
  total : option Z;
  entity : option InputPeer;
  request : option GetAdminLogRequest
}.

Definition set_buffer (b : list AdminLogEvent) (s : Iter) : Iter :=
  {| limit := limit s; left := left s; buffer := b; total := total s;
     entity := entity s; request := request s |}.

Definition set_entity (e : option InputPeer) (s : Iter) : Iter :=
  {| limit := limit s; left := left s; buffer := buffer s; total := total s;
     entity := e; request := request s |}.

Definition set_request (r : option GetAdminLogRequest) (s : Iter) : Iter :=
  {| limit := limit s; left := left s; buffer := buffer s; total := total s;
     entity := entity s; request := r |}.

Definition with_limit (r : GetAdminLogRequest) (l : Z) : GetAdminLogRequest :=
  {| log_channel := log_channel r; q := q r; min_id := min_id r; max_id := max_id r;
     log_limit := l; events_filter := events_filter r; admins := admins r |}.

Definition with_max_id (r : GetAdminLogRequest) (m : Z) : GetAdminLogRequest :=
  {| log_channel := log_channel r; q := q r; min_id := min_id r; max_id := m;
     log_limit := log_limit r; events_filter := events_filter r; admins := admins r |}.

(** Truthiness of a flag that is [None], [False] or [True]. *)
Definition truthy (o : option bool) : bool :=
  match o with Some true => true | _ => false end.

Definition entity_truthy (e : Entity) : bool :=
  match e with
  | EntityName s => str_truthy s
  | EntityId n => negb (n =? 0)
  | EntityInput _ => true
  end.

(** [admins] after [if not utils.is_list_like(admins): admins = (admins,)],
    or the empty list when [admins] is falsy. *)
Definition admins_to_resolve (a : AdminsArg) : list Entity :=
  match a with
  | AdminsNone => []
  | AdminsOne e => if entity_truthy e then [e] else []
  | AdminsList l => l
  end.

(** Modelled from the spec: [m._finish_init(self.client, entities,
    self.entity)], a method of a class outside this file, resolves the
    message with the lookup table and the chat; the message keeps both. *)
Definition _finish_init (ents : gmap Z Peer) (chat : option InputPeer)
  (m : Message) : Message :=
  {| msg_id := msg_id m; finished := Some (ents, chat) |}.

(** The body of [for ev in r.events], up to the wrapping of the event. *)
Definition wrap_event (ents : gmap Z Peer) (chat : option InputPeer)
  (ev : ChannelAdminLogEvent) : AdminLogEvent :=
  let act :=
    match ev_action ev with
    | ChannelAdminLogEventActionEditMessage p n =>
      ChannelAdminLogEventActionEditMessage
        (_finish_init ents chat p) (_finish_init ents chat n)
    | ChannelAdminLogEventActionDeleteMessage m =>
      ChannelAdminLogEventActionDeleteMessage (_finish_init ents chat m)
    | other => other
    end in
  {| original := {| ev_id := ev_id ev; ev_user_id := ev_user_id ev; ev_action := act |};
     entities := ents |}.

Local Open Scope py_scope.

(** [for admin in admins: admin_list.append(await get_input_entity(admin))] *)
Fixpoint resolve_admins (l : list Entity) (acc : list InputPeer) : M Iter (list InputPeer) :=
  match l with
  | [] => ret acc
  | a :: rest =>
    p <- await (get_input_entity a) ;;
    resolve_admins rest (acc ++ [p])
  end.

(** [_AdminLogIter._init] *)
Definition _init (entity_arg : Entity) (admins_arg : AdminsArg)
  (search : option string) (min_id_arg max_id_arg : Z)
  (join leave invite restrict unrestrict ban unban
   promote demote info settings pinned edit delete : option bool) : M Iter unit :=
  let events_filter :=
    if existsb truthy [join; leave; invite; restrict; unrestrict; ban; unban;
                       promote; demote; info; settings; pinned; edit; delete]
    then Some {| f_join := join; f_leave := leave; f_invite := invite;
                 f_ban := restrict; f_unban := unrestrict;
                 f_kick := ban; f_unkick := unban;
                 f_promote := promote; f_demote := demote; f_info := info;
                 f_settings := settings; f_pinned := pinned;
                 f_edit := edit; f_delete := delete |}
    else None in
  ent <- await (get_input_entity entity_arg) ;;
  modify (set_entity (Some ent)) ;;
  admin_list <- resolve_admins (admins_to_resolve admins_arg) [] ;;
  modify (set_request (Some
    {| log_channel := ent;
       q := match search with
            | Some s => if str_truthy s then s else ""
            | None => ""
            end;
       min_id := min_id_arg; max_id := max_id_arg; log_limit := 0;
       events_filter := events_filter;
       admins := match admin_list with [] => None | _ => Some admin_list end |})).

Section WithUtils.

(** [utils.get_peer_id], which lives outside this file. *)
Variable get_peer_id : Peer -> Z.

(** [_AdminLogIter._load_next_chunk]; the result is [true] for
    [return True] and [false] when the method falls off its end. *)
Definition _load_next_chunk : M Iter bool :=
  self <- get ;;
  match request self with
  | None => raise AttributeError
  | Some req =>
    let req := with_limit req (limit_min (left self) _MAX_ADMIN_LOG_CHUNK_SIZE) in
    modify (set_request (Some req)) ;;
    r <- await (Invoke req) ;;
    let ents := py_dict get_peer_id (log_users r ++ log_chats r) in
    let req := with_max_id req (min_default0 (map ev_id (events r))) in
    modify (set_request (Some req)) ;;
    modify (fun s => set_buffer (buffer s ++ map (wrap_event ents (entity s)) (events r)) s) ;;
    if Z.of_nat (length (events r)) <? log_limit req then ret true else ret false
  end.

End WithUtils.

End _AdminLogIter.

(** ** The enumerator around [_load_next_chunk] *)

(** Modelled from the spec: [RequestIter], the generic enumerator, is not in
    this file.  It empties the buffer, asks the strategy for the next chunk
    and hands out what the chunk left in the buffer; an exception from the
    strategy ends the enumeration before anything of that chunk is handed
    out.  [chunks n] is [n] such rounds and the items they hand out, in
    order.  The enumerator may stop before [n] rounds (a chunk returned
    [True], the limit was reached); what it hands out is then a part of
    this list. *)
Fixpoint chunks (get_display_name : User -> string) (n : nat)
  (s : _ParticipantsIter.Iter) : Prog (_ParticipantsIter.Iter * list User) :=
  match n with
  | O => Ret (s, [])
  | S n' =>
    pbind (_ParticipantsIter._load_next_chunk get_display_name
             (_ParticipantsIter.set_buffer [] s))
      (fun '(s1, r) =>
         match r with
         | Err _ => Ret (s1, [])
         | Ok _ =>
           pbind (chunks get_display_name n' s1)
             (fun '(s2, rest) => Ret (s2, _ParticipantsIter.buffer s1 ++ rest))
         end)
  end.

(** A fresh [_ParticipantsIter] with the given limit, as [RequestIter]
    leaves it before calling [_init]. *)
Definition new_participants_iter (l : Limit) : _ParticipantsIter.Iter :=
  {| _ParticipantsIter.limit := l; _ParticipantsIter.left := l;
     _ParticipantsIter.buffer := []; _ParticipantsIter.total := None;
     _ParticipantsIter.filter_entity := _ParticipantsIter.MatchAll;
     _ParticipantsIter.requests := []; _ParticipantsIter.seen := ∅ |}.

Definition new_admin_log_iter (l : Limit) : _AdminLogIter.Iter :=
  {| _AdminLogIter.limit := l; _AdminLogIter.left := l;
     _AdminLogIter.buffer := []; _AdminLogIter.total := None;
     _AdminLogIter.entity := None; _AdminLogIter.request := None |}.

(** ** A scripted client, for running the code on concrete inputs *)

Record Script : Type := {
  sc_peer : InputPeer;                          (* what names and ids resolve to *)
  sc_user : User;                               (* answer of [get_entity] *)
  sc_channel : ChannelFull;
  sc_chat : ChatFull;
  sc_batches : list (list ChannelParticipants); (* answers to successive batches *)
  sc_logs : list AdminLogResults                (* answers to successive log requests *)
}.

Definition next_batch (c : Script) : Script :=
  {| sc_peer := sc_peer c; sc_user := sc_user c; sc_channel := sc_channel c;
     sc_chat := sc_chat c; sc_batches := tail (sc_batches c); sc_logs := sc_logs c |}.

Definition next_log (c : Script) : Script :=
  {| sc_peer := sc_peer c; sc_user := sc_user c; sc_channel := sc_channel c;
     sc_chat := sc_chat c; sc_batches := sc_batches c; sc_logs := tail (sc_logs c) |}.

Definition scripted : Client Script :=
  fun X e =>
    match e in clientE X return Script -> Script * Result X with
    | get_input_entity e => fun c =>
        (c, Ok (match e with EntityInput p => p | _ => sc_peer c end))
    | get_entity _ => fun c => (c, Ok (sc_user c))
    | GetFullChannelRequest _ => fun c => (c, Ok (sc_channel c))
    | GetFullChatRequest _ => fun c => (c, Ok (sc_chat c))
    | Batch _ => fun c =>
        match sc_batches c with
        | [] => (c, Err ConnectionError)
        | b :: _ => (next_batch c, Ok b)
        end
    | Invoke _ => fun c =>
        match sc_logs c with
        | [] => (c, Err ConnectionError)
        | r :: _ => (next_log c, Ok r)
        end
    end.

(** A stand-in for [utils.get_display_name] in the examples. *)
Definition first_name_only (u : User) : string :=
  match first_name u with Some s => s | None => "" end.

Definition mk_user (i : Z) (name : string) (h : Handle) : User :=
  {| id := i; first_name := Some name; last_name := None;
     username := h; participant := Unset |}.

Definition alice : User := mk_user 1 "Alice" (HandleStr "alice_w").
Definition bob : User := mk_user 2 "Bob" HandleNone.
Definition carol : User := mk_user 3 "Carol" NoAttribute.

Definition member (i : Z) : ChannelParticipant := {| user_id := i; rank := 0 |}.

Definition empty_chat : ChatFull :=
  {| chat_participants := ChatParticipantsForbidden; chat_users := [] |}.

Definition some_channel : InputPeer := InputPeerChannel 77 9000.

(** A channel whose first batch answers two shards with an overlap, and
    whose second batch is empty. *)
Definition overlapping_channel : Script :=
  {| sc_peer := some_channel; sc_user := alice;
     sc_channel := {| participants_count := Some 3 |};
     sc_chat := empty_chat;
     sc_batches :=
       [ [ {| participants := [member 1; member 2]; users := [alice; bob] |};
           {| participants := [member 2; member 1; member 3];
              users := [bob; alice; carol] |} ];
         [ {| participants := []; users := [] |};
           {| participants := []; users := [] |} ] ];
     sc_logs := [] |}.

Definition event (i : Z) : ChannelAdminLogEvent :=
  {| ev_id := i; ev_user_id := 1; ev_action := ChannelAdminLogEventActionOther 0 |}.

(** A page of events by Alice, who is among the users of the page. *)
Definition log_page (ids : list Z) : AdminLogResults :=
  {| events := map event ids; log_chats := []; log_users := [PeerUser alice] |}.

(** An admin log answered in two pages, newest first. *)
Definition two_pages : Script :=
  {| sc_peer := some_channel; sc_user := alice;
     sc_channel := {| participants_count := None |};
     sc_chat := empty_chat; sc_batches := [];
     sc_logs := [log_page [9; 8; 7]; log_page [6; 5]] |}.

Definition peer_key (p : Peer) : Z :=
  match p with PeerUser u => id u | PeerChat c _ => - c end.

(** The controller for ['document'] on some chat, entered, with its task
    started and the first request answered by a connection error. *)
Definition document_action : _ChatAction :=
  ChatAction_init (EntityName "friend") (ObjAction 13%nat) 4 true.

Definition idle_world : World :=
  {| store := class_store; sent := []; tasks := [] |}.

Definition entered : _ChatAction * World :=
  let '(c, w, _) := __aenter__ document_action (Ok (InputPeerUser 5 50)) idle_world in
  (c, w).

Definition after_connection_error : _ChatAction * World :=
  let '(c, w) := entered in
  (c, resume c 0%nat (Reply (Err ConnectionError)) (resume c 0%nat Start w)).

(** The requests a scope exit adds to those already sent. *)
Definition sent_by_exit (c : _ChatAction) (reply : Result unit) (w : World) : list Wire :=
  let '(_, w', _) := __aexit__ c reply w in
  drop (length (sent w)) (sent w').

(** ** Statements used below *)

(** The inputs [action] is documented to reject. *)
Definition invalid_action (a : PyObject) : Prop :=
  match a with
  | ObjStr s => _str_mapping !! lower s = None
  | ObjClass => True
  | ObjOther => True
  | ObjTL sid => sid <> SendMessageAction_ID
  | ObjAction _ => False
  end.

(** The task is suspended inside the [while] loop of [_update]. *)
Definition in_loop (s : TaskState) : bool :=
  match s with
  | AwaitCall | AwaitSleep => true
  | _ => false
  end.

(** Every exit of a controller with [auto_cancel] sends the cancel request,
    once. *)
Definition exit_always_cancels : Prop :=
  forall (c : _ChatAction) (w : World) (reply : Result unit) (tid : nat),
    _task c = Some tid -> is_Some (tasks w !! tid) -> _auto_cancel c = true ->
    sent_by_exit c reply w = [cancel_wire (_chat c)].

(** The entity has no handle to match against. *)
Definition no_handle (ent : User) : Prop :=
  match username ent with
  | NoAttribute | HandleNone => True
  | HandleStr s => s = ""%string
  end.

(** The client resolves every entity it is asked about. *)
Definition resolves {C : Type} (h : Client C) : Prop :=
  forall (e : Entity) (c : C), exists c' p, h _ (get_input_entity e) c = (c', Ok p).

(** The display name of an entity does not depend on the participant
    attached to it. *)
Definition ignores_participant (get_display_name : User -> string) : Prop :=
  forall u p, get_display_name (with_participant u p) = get_display_name u.


(** The admin-log iterator of the examples, after [_init] with a limit of
    three and the [restrict] flag. *)
Definition first_log_state : _AdminLogIter.Iter :=
  let '(_, _, (s, _)) :=
    run scripted
      (_AdminLogIter._init (EntityName "grp") _AdminLogIter.AdminsNone None 0 0
         None None None (Some true) None None None
         None None None None None None None (new_admin_log_iter (Fin 3))) two_pages in
  s.

(** The participants iterator of the examples, after an aggressive [_init]
    with search ["ab"] and no limit. *)
Definition aggressive_state : _ParticipantsIter.Iter :=
  let '(_, _, (s, _)) :=
    run scripted
      (_ParticipantsIter._init first_name_only (EntityName "grp") FilterNone "ab" true
         (new_participants_iter Inf)) overlapping_channel in
  s.

(** ** Further statements *)

(** [k] more rounds of the periodic loop as the event loop drives it: the
    pending request is answered, then the sleep ends and the next request
    goes out. *)
Fixpoint rounds (self : _ChatAction) (tid : nat) (k : nat) (w : World) : World :=
  match k with
  | O => w
  | S k' => rounds self tid k' (resume self tid Timer (resume self tid (Reply (Ok tt)) w))
  end.

(** What one response of a batch does to the request it answers: the
    request is dropped when the response has no users, and otherwise its
    offset moves on by the number of participants. *)
Definition advance (x : GetParticipantsRequest * ChannelParticipants)
  : option GetParticipantsRequest :=
  match users (snd x) with
  | [] => None
  | _ => Some (_ParticipantsIter.with_offset (fst x)
                 (req_offset (fst x) + Z.of_nat (length (participants (snd x)))))
  end.



(** A small group of two, one whose response lacks a user, and one whose
    participants are hidden. *)
Definition small_group : Script :=
  {| sc_peer := InputPeerChat 12; sc_user := alice;
     sc_channel := {| participants_count := None |};
     sc_chat := {| chat_participants := ChatParticipants [member 1; member 2];
                   chat_users := [alice; bob] |};
     sc_batches := []; sc_logs := [] |}.

Definition broken_group : Script :=
  {| sc_peer := InputPeerChat 12; sc_user := alice;
     sc_channel := {| participants_count := None |};
     sc_chat := {| chat_participants := ChatParticipants [member 1; member 3];
                   chat_users := [alice; bob] |};
     sc_batches := []; sc_logs := [] |}.

Definition hidden_group : Script :=
  {| sc_peer := InputPeerChat 12; sc_user := alice;
     sc_channel := {| participants_count := None |};
     sc_chat := empty_chat; sc_batches := []; sc_logs := [] |}.

(** A single user, Alice. *)
Definition one_user : Script :=
  {| sc_peer := InputPeerUser 1 10; sc_user := alice;
     sc_channel := {| participants_count := None |};
     sc_chat := empty_chat; sc_batches := []; sc_logs := [] |}.

(** The letters [É] and [é], by code point. *)
Definition E_acute : string := String (ascii_of_nat 201) EmptyString.
Definition e_acute : string := String (ascii_of_nat 233) EmptyString.

(** Two users whose names begin with them. *)
Definition emile : User := mk_user 4 (e_acute ++ "mile") (HandleStr "emile_w").
Definition Elodie : User := mk_user 5 (E_acute ++ "lodie") (HandleStr "elodie_w").

(** A single user, emile. *)
Definition one_latin_user : Script :=
  {| sc_peer := InputPeerUser 4 40; sc_user := emile;
     sc_channel := {| participants_count := None |};
     sc_chat := empty_chat; sc_batches := []; sc_logs := [] |}.

(** A channel that answers every shard with nothing. *)
Definition silent_channel : Script :=
  {| sc_peer := some_channel; sc_user := alice;
     sc_channel := {| participants_count := Some 0 |};
     sc_chat := empty_chat;
     sc_batches := [ [ {| participants := []; users := [] |};
                       {| participants := []; users := [] |} ] ];
     sc_logs := [] |}.

(** A channel that answers two shards with one response. *)
Definition short_channel : Script :=
  {| sc_peer := some_channel; sc_user := alice;
     sc_channel := {| participants_count := Some 1 |};
     sc_chat := empty_chat;
     sc_batches := [ [ {| participants := [member 1]; users := [alice] |} ] ];
     sc_logs := [] |}.


(** The admin-log iterator of the examples after [_init] with a limit of
    five thousand. *)
Definition capped_log_state : _AdminLogIter.Iter :=
  let '(_, _, (s, _)) :=
    run scripted
      (_AdminLogIter._init (EntityName "grp") _AdminLogIter.AdminsNone None 0 0
         None None None (Some true) None None None
         None None None None None None None (new_admin_log_iter (Fin 5000))) two_pages in
  s.

(** * Properties *)

(** ** Running computations *)

Lemma run_pbind {C A B} (h : Client C) (p : Prog A) (f : A -> Prog B) (c : C) :
  run h (pbind p f) c =
  let '(c1, t1, a) := run h p c in
  let '(c2, t2, b) := run h (f a) c1 in
  (c2, t1 ++ t2, b).
Proof.
  revert c. induction p as [a | X e k IH]; intros c; simpl.
  - destruct (run h (f a) c) as [[c2 t2] b]. reflexivity.
  - destruct (h X e c) as [c1 r]. rewrite IH.
    destruct (run h (k r) c1) as [[c1' t1] a].
    destruct (run h (f a) c1') as [[c2 t2] b]. reflexivity.
Qed.

Lemma run_bind {C S A B} (h : Client C) (m : M S A) (f : A -> M S B) (s : S) (c : C) :
  run h (bind m f s) c =
  let '(c1, t1, (s1, r)) := run h (m s) c in
  match r with
  | Ok a => let '(c2, t2, x) := run h (f a s1) c1 in (c2, t1 ++ t2, x)
  | Err e => (c1, t1, (s1, Err e))
  end.
Proof.
  unfold bind. rewrite run_pbind.
  destruct (run h (m s) c) as [[c1 t1] [s1 [a | e]]]; simpl.
  - destruct (run h (f a s1) c1) as [[c2 t2] x]. reflexivity.
  - rewrite app_nil_r. reflexivity.
Qed.

Lemma run_await {C S X} (h : Client C) (e : clientE X) (s : S) (c : C) :
  run h (await e s) c = let '(c1, r) := h X e c in (c1, [MkCall e], (s, r)).
Proof. simpl. destruct (h X e c). reflexivity. Qed.

(** ** [_ChatAction.progress] *)

Lemma round_half_even_le (n d k : Z) :
  0 < d -> n <= k * d -> round_half_even n d <= k.
Proof.
  intros Hd Hn. unfold round_half_even.
  pose proof (Z.div_mod n d ltac:(lia)) as Hdm.
  pose proof (Z.mod_pos_bound n d Hd) as Hr.
  assert (Hq : n / d <= k) by nia.
  destruct (Z.compare_spec (2 * Z.abs (n mod d)) (Z.abs d)) as [E | E | E].
  - destruct (Z.even (n / d)); [lia |]. assert (n / d <> k) by nia. lia.
  - lia.
  - assert (n / d <> k) by nia. lia.
Qed.

Lemma round_half_even_ge (n d k : Z) :
  0 < d -> k * d <= n -> k <= round_half_even n d.
Proof.
  intros Hd Hn. unfold round_half_even.
  pose proof (Z.div_mod n d ltac:(lia)) as Hdm.
  pose proof (Z.mod_pos_bound n d Hd) as Hr.
  assert (Hq : k <= n / d) by nia.
  destruct (2 * Z.abs (n mod d) ?= Z.abs d); [destruct (Z.even (n / d)) | |]; lia.
Qed.

Lemma pow2_pos (k : Z) : 0 < pow2 k.
Proof. unfold pow2. apply Z.pow_pos_nonneg; lia. Qed.

Lemma quotient_exponent_le (a b : Z) :
  0 < a -> a <= b -> quotient_exponent a b <= 0.
Proof.
  intros Ha Hab. unfold quotient_exponent.
  pose proof (Z.log2_le_mono a b Hab).
  destruct (_ <=? _); lia.
Qed.

(** [round(current / total)] between the first and the last byte. *)
Lemma py_round_truediv_unit (current total : Z) :
  0 <= current <= total -> 0 < total ->
  py_round_truediv current total = Ok 0 \/ py_round_truediv current total = Ok 1.
Proof.
  intros Hc Ht. unfold py_round_truediv, true_divide.
  destruct (Z.eqb_spec total 0) as [? | _]; [lia |].
  destruct (Z.eqb_spec current 0) as [-> | Hne]; [left; reflexivity |].
  rewrite (Z.abs_eq current), (Z.abs_eq total) by lia.
  pose proof (quotient_exponent_le current total ltac:(lia) ltac:(lia)) as He.
  set (u := Z.max (quotient_exponent current total) (-1022) - 52).
  assert (Hu : u < 0) by lia.
  destruct (Z.leb_spec 0 u) as [? | _]; [lia |]. cbn [andb round_float].
  destruct (Z.leb_spec 0 u) as [? | _]; [lia |].
  rewrite (Z.sgn_pos current), (Z.sgn_pos total) by lia.
  assert (Hp1 : pow2 u = 1) by (unfold pow2; rewrite Z.max_r by lia; reflexivity).
  assert (Hp2 : pow2 (- u) = 2 ^ (- u)) by (unfold pow2; rewrite Z.max_l by lia; reflexivity).
  rewrite Hp1, Hp2, !Z.mul_1_l, Z.mul_1_r.
  assert (Hk : 0 < 2 ^ (- u)) by (apply Z.pow_pos_nonneg; lia).
  set (m := round_half_even (current * 2 ^ (- u)) total).
  assert (Hm0 : 0 <= m) by (apply round_half_even_ge; nia).
  assert (Hm1 : m <= 2 ^ (- u)) by (apply round_half_even_le; nia).
  assert (H0 : 0 <= round_half_even m (2 ^ (- u))) by (apply round_half_even_ge; lia).
  assert (H1 : round_half_even m (2 ^ (- u)) <= 1) by (apply round_half_even_le; lia).
  assert (Hcase : round_half_even m (2 ^ (- u)) = 0 \/ round_half_even m (2 ^ (- u)) = 1)
    by lia.
  destruct Hcase as [-> | ->]; auto.
Qed.

(** What the method stores: a hundred times the rounded quotient. *)
Lemma progress_stores (c : _ChatAction) (l : nat) (a : SendMessageAction)
  (current total v : Z) (st : Store) :
  _action c = ObjAction l -> st !! l = Some a -> has_progress a = true ->
  py_round_truediv current total = Ok v ->
  exists st', progress c current total st = Ok st' /\
    (deref st' (_action c) ≫= get_progress) = Some (100 * v).
Proof.
  intros Ha Hl Hp Hv. unfold progress. rewrite Ha, Hl, Hp, Hv.
  eexists. split; [reflexivity |].
  simpl. rewrite lookup_insert_eq. destruct a; try discriminate; reflexivity.
Qed.

(** Between the first and the last byte the stored progress is 0 or 100. *)
Lemma progress_is_0_or_100 (c : _ChatAction) (l : nat) (a : SendMessageAction)
  (current total : Z) (st : Store) :
  _action c = ObjAction l -> st !! l = Some a -> has_progress a = true ->
  0 <= current <= total -> 0 < total ->
  exists st' p, progress c current total st = Ok st' /\
    (deref st' (_action c) ≫= get_progress) = Some p /\ (p = 0 \/ p = 100).
Proof.
  intros Ha Hl Hp Hc Ht.
  destruct (py_round_truediv_unit current total Hc Ht) as [Hv | Hv];
    destruct (progress_stores c l a current total _ st Ha Hl Hp Hv) as (st' & E1 & E2);
    eexists st', _; (split; [exact E1 |]); (split; [exact E2 |]); auto.
Qed.

(** C1 (the code departs from the claim).  Reporting 1 of 4 on the shared
    ['document'] action stores progress 0 in the object the request holds,
    where [round(100 * current / total)] is 25. *)
Theorem progress_one_of_four_stores_zero :
  exists st',
    progress document_action 1 4 class_store = Ok st' /\
    deref st' (_action document_action) = Some (SendMessageUploadDocumentAction 0) /\
    serialize st' {| peer := _chat document_action; action_ref := _action document_action |}
      = {| w_peer := _chat document_action;
           w_action := Some (SendMessageUploadDocumentAction 0) |} /\
    percent 1 4 = 25.
Proof. eexists. repeat split; vm_compute; reflexivity. Qed.

(** ** [self.filter_entity] *)

Section FilterEntity.

Variable get_display_name : User -> string.

Let call := _ParticipantsIter.call_filter_entity get_display_name.

(** With a handle the lambda returns: the search is in the lowered display
    name or in the lowered handle. *)
Lemma filter_entity_with_handle (search handle : string) (ent : User) :
  username ent = HandleStr handle -> handle <> ""%string ->
  call (_ParticipantsIter.MatchSearch search) ent =
  Ok (str_in search (lower (get_display_name ent)) || str_in search (lower handle)).
Proof.
  intros Hu Hne. unfold call, _ParticipantsIter.call_filter_entity,
    _ParticipantsIter.getattr_username. rewrite Hu.
  destruct handle; [contradiction |]. simpl.
  destruct (str_in search (lower (get_display_name ent))); reflexivity.
Qed.

(** Without one it returns only when the display name matches, and raises
    otherwise. *)
Lemma filter_entity_without_handle (search : string) (ent : User) :
  no_handle ent ->
  call (_ParticipantsIter.MatchSearch search) ent =
  if str_in search (lower (get_display_name ent)) then Ok true else Err AttributeError.
Proof.
  unfold no_handle, call, _ParticipantsIter.call_filter_entity,
    _ParticipantsIter.getattr_username.
  destruct (username ent) as [| | s]; intros H; try subst s; simpl;
    destruct (str_in search (lower (get_display_name ent))); reflexivity.
Qed.

End FilterEntity.

(** C2 (the code departs from the claim).  Searching ["x"] among entities
    whose display name does not contain it: with [username] set to [None],
    missing, or empty the lambda raises [AttributeError] instead of
    answering false, and so does [_init] on a single-user target. *)
Theorem filter_entity_raises_without_handle :
  _ParticipantsIter.call_filter_entity first_name_only
    (_ParticipantsIter.MatchSearch "x") bob = Err AttributeError /\
  _ParticipantsIter.call_filter_entity first_name_only
    (_ParticipantsIter.MatchSearch "x") carol = Err AttributeError /\
  _ParticipantsIter.call_filter_entity first_name_only
    (_ParticipantsIter.MatchSearch "x") (mk_user 4 "Dan" (HandleStr "")) = Err AttributeError /\
  snd (snd (run scripted
    (_ParticipantsIter._init first_name_only (EntityInput (InputPeerUser 2 20))
       FilterNone "X" false (new_participants_iter Inf))
    {| sc_peer := some_channel; sc_user := bob;
       sc_channel := {| participants_count := None |}; sc_chat := empty_chat;
       sc_batches := []; sc_logs := [] |})) = Err AttributeError.
Proof. repeat split; reflexivity. Qed.

(** ** [ChatMethods.action] *)

(** The alias table: each key and the action it names. *)
Lemma str_mapping_table :
  map (fun k => _str_mapping !! k ≫= (class_store !!.)) _str_mapping_keys =
  map Some _str_mapping_objects.
Proof. vm_compute. reflexivity. Qed.

(** A recognised tag, in any letter case, resolves to the object the table
    holds for it. *)
Lemma action_resolves_tag (s : string) (l : nat) :
  _str_mapping !! lower s = Some l -> resolve_action (ObjStr s) = Ok (ObjAction l).
Proof. intros H. simpl. rewrite H. reflexivity. Qed.

Lemma aliases_resolve_alike :
  (_str_mapping !! "record-voice"%string ≫= (class_store !!.)) =
  (_str_mapping !! "record-audio"%string ≫= (class_store !!.)) /\
  (_str_mapping !! "voice"%string ≫= (class_store !!.)) =
  (_str_mapping !! "audio"%string ≫= (class_store !!.)) /\
  (_str_mapping !! "file"%string ≫= (class_store !!.)) =
  (_str_mapping !! "document"%string ≫= (class_store !!.)) /\
  (_str_mapping !! "song"%string ≫= (class_store !!.)) =
  (_str_mapping !! "document"%string ≫= (class_store !!.)).
Proof. repeat split; vm_compute; reflexivity. Qed.

(** C9.  An unrecognised tag, a class, an instance of another [TLObject]
    family or any other object makes [action] raise [ValueError]: it
    returns neither a request to invoke nor a controller. *)
Theorem action_rejects_invalid_input (st : Store) (entity : Entity) (a : PyObject)
  (delay : Z) (auto_cancel : bool) :
  invalid_action a ->
  exists msg, action st entity a delay auto_cancel = Raises (ValueError msg).
Proof.
  unfold action. destruct a as [s | | l | sid |]; simpl; intros H.
  - rewrite H. eexists. reflexivity.
  - eexists. reflexivity.
  - contradiction.
  - destruct (Z.eqb_spec sid SendMessageAction_ID) as [? | _]; [contradiction |].
    eexists. reflexivity.
  - eexists. reflexivity.
Qed.

Lemma action_rejects_invalid_input_witness :
  invalid_action (ObjStr "typng") /\
  exists msg, action class_store (EntityName "friend") (ObjStr "typng") 4 true
              = Raises (ValueError msg).
Proof.
  assert (H : invalid_action (ObjStr "typng")) by (vm_compute; reflexivity).
  split; [exact H |].
  exact (action_rejects_invalid_input class_store (EntityName "friend")
           (ObjStr "typng") 4 true H).
Defined.

(** ** [_ChatAction.__aexit__] *)

Lemma update_keeps (c : _ChatAction) (s : TaskState) (k : Wakeup) (w : World) :
  store (fst (_update c s k w)) = store w /\ tasks (fst (_update c s k w)) = tasks w.
Proof.
  unfold _update, loop_head, on_cancelled.
  repeat match goal with
         | |- context [match ?x with _ => _ end] => destruct x; simpl
         end; auto.
Qed.

Lemma resume_task (c : _ChatAction) (tid : nat) (k : Wakeup) (w : World) (s : TaskState) :
  tasks w !! tid = Some s ->
  tasks (resume c tid k w) !! tid = Some (snd (_update c s k w)) /\
  sent (resume c tid k w) = sent (fst (_update c s k w)) /\
  store (resume c tid k w) = store w.
Proof.
  intros H. unfold resume. rewrite H.
  destruct (update_keeps c s k w) as [Hs Ht].
  destruct (_update c s k w) as [w' s']. simpl in *.
  repeat split; auto.
  apply list_lookup_insert_eq. rewrite Ht. eapply lookup_lt_Some; eauto.
Qed.

(** C10, as the code has it.  Whatever state the task is in, [__aexit__]
    clears [_running], leaves the task finished, and never lets the
    cancellation escape; the cancel request for the resolved chat is sent,
    once and after everything sent before, exactly when [auto_cancel] is
    set and the task was still suspended inside its loop. *)
Theorem aexit_stops_task_and_cancels_in_loop (c : _ChatAction) (w : World)
  (reply : Result unit) (tid : nat) (s : TaskState) :
  _task c = Some tid -> tasks w !! tid = Some s ->
  let '(c', w', r) := __aexit__ c reply w in
  _running c' = false /\
  (exists res, tasks w' !! tid = Some (Done res)) /\
  sent w' = sent w ++ (if _auto_cancel c && in_loop s
                       then [cancel_wire (_chat c)] else []) /\
  store w' = store w /\
  r <> Err CancelledError /\
  (r = Ok tt -> _task c' = None).
Proof.
  intros Ht Hs. unfold __aexit__. cbn [set_running _task]. rewrite Ht.
  set (c0 := set_running c false).
  destruct (resume_task c0 tid Cancel w s Hs) as (H1 & H2 & H3).
  set (w1 := resume c0 tid Cancel w) in *.
  assert (Hac : _auto_cancel c0 = _auto_cancel c) by reflexivity.
  assert (Hch : _chat c0 = _chat c) by reflexivity.
  assert (Hfin : forall w2 r2,
             tasks w2 !! tid = Some (Done r2) ->
             sent w2 = sent w ++ (if _auto_cancel c && in_loop s
                                  then [cancel_wire (_chat c)] else []) ->
             store w2 = store w ->
             let '(c', w', r) :=
               match await_result r2 with
               | Ok _ | Err CancelledError => (clear_task c0, w2, Ok tt)
               | Err e => (c0, w2, Err e)
               end in
             _running c' = false /\
             (exists res, tasks w' !! tid = Some (Done res)) /\
             sent w' = sent w ++ (if _auto_cancel c && in_loop s
                                  then [cancel_wire (_chat c)] else []) /\
             store w' = store w /\
             r <> Err CancelledError /\
             (r = Ok tt -> _task c' = None)).
  { intros w2 r2 E1 E2 E3.
    destruct r2 as [| | []]; simpl; repeat split; eauto; congruence. }
  destruct s as [| | | | res]; simpl in H1, H2;
    unfold on_cancelled in H1, H2; rewrite ?Hac, ?Hch in H1, H2;
    destruct (_auto_cancel c) eqn:Eac; simpl in H1, H2;
    rewrite H1; cbn beta iota zeta;
    try (rewrite H1; apply Hfin; auto; rewrite H2, ?app_nil_r; reflexivity);
    destruct (resume_task c0 tid (Reply reply) w1 _ H1) as (G1 & G2 & G3);
    (destruct reply as [[] | []]; simpl in G1, G2; rewrite G1; cbn beta iota zeta;
     (apply Hfin; [ exact G1 | rewrite G2, H2; reflexivity | congruence ])).
Qed.

Lemma aexit_stops_task_and_cancels_in_loop_witness :
  let c := fst entered in
  let w := resume c 0%nat Start (snd entered) in
  _task c = Some 0%nat /\ tasks w !! 0%nat = Some AwaitCall /\
  let '(c', w', r) := __aexit__ c (Ok tt) w in
  _running c' = false /\
  (exists res, tasks w' !! 0%nat = Some (Done res)) /\
  sent w' = sent w ++ (if _auto_cancel c && in_loop AwaitCall
                       then [cancel_wire (_chat c)] else []) /\
  store w' = store w /\
  r <> Err CancelledError /\
  (r = Ok tt -> _task c' = None).
Proof.
  split; [reflexivity |]. split; [reflexivity |].
  exact (aexit_stops_task_and_cancels_in_loop (fst entered)
           (resume (fst entered) 0%nat Start (snd entered)) (Ok tt) 0%nat AwaitCall
           eq_refl eq_refl).
Defined.

(** C10 as stated fails: once the loop has ended on a [ConnectionError],
    leaving the scope of a controller with [auto_cancel] sends nothing. *)
Lemma exit_after_connection_error_sends_nothing : ~ exit_always_cancels.
Proof.
  intros H.
  specialize (H (fst after_connection_error) (snd after_connection_error)
                (Ok tt) 0%nat eq_refl).
  assert (Hs : is_Some (tasks (snd after_connection_error) !! 0%nat))
    by (eexists; reflexivity).
  specialize (H Hs eq_refl). vm_compute in H. discriminate H.
Qed.

Lemma run_vis {C A X} (h : Client C) (e : clientE X) (k : Result X -> Prog A) (c : C) :
  run h (Vis e k) c =
  let '(c1, r) := h X e c in
  let '(c2, t, a) := run h (k r) c1 in
  (c2, MkCall e :: t, a).
Proof. reflexivity. Qed.

(** ** [_ParticipantsIter._init] on a channel *)

Section ParticipantsInit.

Context {C : Type}.
Variable get_display_name : User -> string.
Variable h : Client C.

Let init := _ParticipantsIter._init get_display_name.
Let load := _ParticipantsIter._load_next_chunk get_display_name.

(** C6.  On a channel with a limit that is not positive, [_init] asks the
    client to resolve the entity and for the full channel, then raises
    [StopAsyncIteration]: nothing was put in the buffer, no request was
    prepared, and a later [_load_next_chunk] returns without a call. *)
Theorem init_channel_nonpositive_limit (entity : Entity) (filter : FilterArg)
  (search : string) (aggressive : bool) (s : _ParticipantsIter.Iter)
  (c c1 c2 : C) (cid hash : Z) (full : ChannelFull) :
  h _ (get_input_entity entity) c = (c1, Ok (InputPeerChannel cid hash)) ->
  h _ (GetFullChannelRequest (InputPeerChannel cid hash)) c1 = (c2, Ok full) ->
  limit_le0 (_ParticipantsIter.limit s) = true ->
  exists s',
    run h (init entity filter search aggressive s) c =
      (c2, [MkCall (get_input_entity entity);
            MkCall (GetFullChannelRequest (InputPeerChannel cid hash))],
       (s', Err StopAsyncIteration)) /\
    _ParticipantsIter.buffer s' = _ParticipantsIter.buffer s /\
    _ParticipantsIter.requests s' = [] /\
    _ParticipantsIter.total s' = participants_count full /\
    forall c', run h (load s') c' = (c', [], (s', Ok true)).
Proof.
  intros H1 H2 Hl. unfold init, _ParticipantsIter._init.
  rewrite run_bind, run_await, H1.
  cbn -[run]. rewrite run_vis, H2. cbn. rewrite Hl.
  eexists. split; [reflexivity |]. repeat split.
Qed.



Lemma lookup_map {A B : Type} (f : A -> B) (l : list A) (i : nat) :
  map f l !! i = f <$> l !! i.
Proof.
  revert i. induction l as [| x l IH]; intros i; simpl.
  - destruct i; reflexivity.
  - destruct i as [| i]; simpl; [reflexivity | apply IH].
Qed.


End ParticipantsInit.

Lemma init_channel_nonpositive_limit_witness :
  limit_le0 (_ParticipantsIter.limit (new_participants_iter (Fin 0))) = true /\
  exists s',
    run scripted
      (_ParticipantsIter._init first_name_only (EntityName "grp") FilterNone "" true
         (new_participants_iter (Fin 0))) overlapping_channel =
      (overlapping_channel,
       [MkCall (get_input_entity (EntityName "grp"));
        MkCall (GetFullChannelRequest (InputPeerChannel 77 9000))],
       (s', Err StopAsyncIteration)) /\
    _ParticipantsIter.buffer s' = [] /\
    _ParticipantsIter.requests s' = [] /\
    _ParticipantsIter.total s' = Some 3 /\
    forall c', run scripted (_ParticipantsIter._load_next_chunk first_name_only s') c'
               = (c', [], (s', Ok true)).
Proof.
  split; [reflexivity |].
  exact (init_channel_nonpositive_limit first_name_only scripted (EntityName "grp") FilterNone "" true
           (new_participants_iter (Fin 0)) overlapping_channel overlapping_channel
           overlapping_channel 77 9000 {| participants_count := Some 3 |}
           eq_refl eq_refl eq_refl).
Defined.


(** ** [_AdminLogIter._init] *)

Section AdminLogInit.

Context {C : Type}.
Variable h : Client C.
Hypothesis h_resolves : resolves h.

Lemma resolve_admins_returns (l : list Entity) (acc : list InputPeer)
  (s : _AdminLogIter.Iter) (c : C) :
  exists c' t ps, run h (_AdminLogIter.resolve_admins l acc s) c = (c', t, (s, Ok ps)).
Proof.
  revert acc c. induction l as [| a rest IH]; intros acc c.
  - simpl. eauto.
  - destruct (h_resolves a c) as (c1 & p & Hp).
    change (_AdminLogIter.resolve_admins (a :: rest) acc s)
      with (bind (await (get_input_entity a))
                 (fun p => _AdminLogIter.resolve_admins rest (acc ++ [p])) s).
    rewrite run_bind, run_await, Hp.
    destruct (IH (acc ++ [p]) c1) as (c' & t & ps & E). rewrite E. eauto.
Qed.

(** C3.  When some category flag is true and the client resolves the
    entities, [_init] returns with a request whose filter carries
    [restrict] as [ban], [unrestrict] as [unban], [ban] as [kick] and
    [unban] as [unkick], and every other flag under its own name; a flag
    that was not set is not set in the filter. *)
Theorem admin_log_filter_mapping (entity : Entity) (admins_arg : _AdminLogIter.AdminsArg)
  (search : option string) (min_id max_id : Z)
  (join leave invite restrict unrestrict ban unban
   promote demote info settings pinned edit delete : option bool)
  (s : _AdminLogIter.Iter) (c : C) :
  existsb _AdminLogIter.truthy
    [join; leave; invite; restrict; unrestrict; ban; unban;
     promote; demote; info; settings; pinned; edit; delete] = true ->
  exists c' t s' req f,
    run h (_AdminLogIter._init entity admins_arg search min_id max_id
             join leave invite restrict unrestrict ban unban
             promote demote info settings pinned edit delete s) c
      = (c', t, (s', Ok tt)) /\
    _AdminLogIter.request s' = Some req /\
    events_filter req = Some f /\
    f_ban f = restrict /\ f_kick f = ban /\
    f_unban f = unrestrict /\ f_unkick f = unban /\
    [f_join f; f_leave f; f_invite f; f_promote f; f_demote f;
     f_info f; f_settings f; f_pinned f; f_edit f; f_delete f] =
    [join; leave; invite; promote; demote; info; settings; pinned; edit; delete].
Proof.
  intros Hany. unfold _AdminLogIter._init. rewrite Hany.
  destruct (h_resolves entity c) as (c1 & p & Hp).
  rewrite run_bind, run_await, Hp. cbn -[run _AdminLogIter.resolve_admins].
  rewrite run_bind.
  destruct (resolve_admins_returns
              (_AdminLogIter.admins_to_resolve admins_arg) []
              (_AdminLogIter.set_entity (Some p) s) c1) as (c' & t & ps & E).
  rewrite E. cbn.
  do 5 eexists. split; [reflexivity |]. cbn. repeat split.
Qed.

End AdminLogInit.

Lemma scripted_resolves : resolves scripted.
Proof. intros e c. do 2 eexists. reflexivity. Qed.

Lemma admin_log_filter_mapping_witness :
  existsb _AdminLogIter.truthy
    [None; None; None; Some true; None; None; None;
     None; None; None; None; None; None; None] = true /\
  exists c' t s' req f,
    run scripted
      (_AdminLogIter._init (EntityName "grp") _AdminLogIter.AdminsNone None 0 0
         None None None (Some true) None None None
         None None None None None None None (new_admin_log_iter (Fin 3))) two_pages
      = (c', t, (s', Ok tt)) /\
    _AdminLogIter.request s' = Some req /\
    events_filter req = Some f /\
    f_ban f = Some true /\ f_kick f = None /\
    f_unban f = None /\ f_unkick f = None /\
    [f_join f; f_leave f; f_invite f; f_promote f; f_demote f;
     f_info f; f_settings f; f_pinned f; f_edit f; f_delete f] =
    [None; None; None; None; None; None; None; None; None; None].
Proof.
  split; [reflexivity |].
  exact (admin_log_filter_mapping scripted scripted_resolves (EntityName "grp")
           _AdminLogIter.AdminsNone None 0 0
           None None None (Some true) None None None
           None None None None None None None (new_admin_log_iter (Fin 3))
           two_pages eq_refl).
Defined.

(** Without a true flag no filter is built. *)
Lemma admin_log_no_filter (entity : Entity) (search : option string) (min_id max_id : Z)
  (fl : option bool) :
  _AdminLogIter.truthy fl = false ->
  let '(_, _, (s', _)) :=
    run scripted
      (_AdminLogIter._init entity _AdminLogIter.AdminsNone search min_id max_id
         fl fl fl fl fl fl fl fl fl fl fl fl fl fl (new_admin_log_iter Inf)) two_pages in
  events_filter <$> _AdminLogIter.request s' = Some None.
Proof. intros H. cbn. rewrite H. reflexivity. Qed.

(** ** [_AdminLogIter._load_next_chunk] *)

Lemma fold_min_le (t : list Z) (x : Z) :
  fold_left Z.min t x <= x /\
  (forall y, In y t -> fold_left Z.min t x <= y) /\
  In (fold_left Z.min t x) (x :: t).
Proof.
  revert x. induction t as [| y t IH]; intros x; simpl.
  - split; [lia |]. split; [tauto | auto].
  - destruct (IH (Z.min x y)) as (H1 & H2 & H3).
    split; [lia |]. split.
    + intros z [<- | Hz]; [lia | auto].
    + destruct H3 as [H3 | H3]; [| auto].
      rewrite <- H3. destruct (Z.min_spec x y) as [[_ ->] | [_ ->]]; auto.
Qed.

(** [min(xs, default=0)] is 0 on the empty list and otherwise the least
    element. *)
Lemma min_default0_spec (xs : list Z) :
  match xs with
  | [] => min_default0 xs = 0
  | _ => In (min_default0 xs) xs /\ forall y, In y xs -> min_default0 xs <= y
  end.
Proof.
  destruct xs as [| x t]; [reflexivity |]. simpl.
  destruct (fold_min_le t x) as (H1 & H2 & H3).
  split; [exact H3 |]. intros y [<- | Hy]; auto.
Qed.

Section AdminLogChunk.

Context {C : Type}.
Variable get_peer_id : Peer -> Z.
Variable h : Client C.

Let load := _AdminLogIter._load_next_chunk get_peer_id.

(** The request a chunk load sends from state [s]. *)
Let outgoing (s : _AdminLogIter.Iter) (req : GetAdminLogRequest) : GetAdminLogRequest :=
  _AdminLogIter.with_limit req
    (limit_min (_AdminLogIter.left s) _MAX_ADMIN_LOG_CHUNK_SIZE).

Lemma load_run (s : _AdminLogIter.Iter) (req : GetAdminLogRequest)
  (c c1 : C) (r : AdminLogResults) :
  _AdminLogIter.request s = Some req ->
  h _ (Invoke (outgoing s req)) c = (c1, Ok r) ->
  run h (load s) c =
  (c1, [MkCall (Invoke (outgoing s req))],
   (_AdminLogIter.set_buffer
      (_AdminLogIter.buffer s ++
       map (_AdminLogIter.wrap_event
              (py_dict get_peer_id (log_users r ++ log_chats r))
              (_AdminLogIter.entity s)) (events r))
      (_AdminLogIter.set_request
         (Some (_AdminLogIter.with_max_id (outgoing s req)
                  (min_default0 (map ev_id (events r))))) s),
    Ok (Z.of_nat (length (events r)) <? log_limit (outgoing s req)))).
Proof.
  intros Hr Hh. unfold load, _AdminLogIter._load_next_chunk.
  cbn -[run]. rewrite Hr. cbn -[run]. fold (outgoing s req).
  rewrite run_vis, Hh. cbn.
  match goal with
  | |- context [if ?b then ret true else ret false] => destruct b
  end; reflexivity.
Qed.

(** C5.  A chunk load sends one request, whose limit is
    [min(self.left, 100)] (the smaller of [left] and 100 for a finite
    [left], 100 for an unbounded one, so never above 100), and returns
    [True] exactly when the answer has fewer events than that limit. *)
Theorem admin_log_chunk_limit_and_exhaustion (s : _AdminLogIter.Iter)
  (req : GetAdminLogRequest) (c c1 : C) (r : AdminLogResults) :
  _AdminLogIter.request s = Some req ->
  h _ (Invoke (outgoing s req)) c = (c1, Ok r) ->
  exists s' sent_req done,
    run h (load s) c = (c1, [MkCall (Invoke sent_req)], (s', Ok done)) /\
    log_limit sent_req = limit_min (_AdminLogIter.left s) 100 /\
    log_limit sent_req = match _AdminLogIter.left s with
                         | Fin n => Z.min n 100
                         | Inf => 100
                         end /\
    log_limit sent_req <= 100 /\
    (log_limit <$> _AdminLogIter.request s') = Some (log_limit sent_req) /\
    (done = true <-> Z.of_nat (length (events r)) < log_limit sent_req).
Proof.
  intros Hr Hh. rewrite (load_run s req c c1 r Hr Hh).
  do 3 eexists. split; [reflexivity |]. split; [reflexivity |].
  split; [unfold outgoing; cbn; destruct (_AdminLogIter.left s); reflexivity |].
  split; [unfold outgoing, limit_min, _MAX_ADMIN_LOG_CHUNK_SIZE;
          cbn [log_limit _AdminLogIter.with_limit];
          destruct (_AdminLogIter.left s); lia |].
  split; [reflexivity |]. split.
  - intros H. apply Z.ltb_lt. exact H.
  - intros H. apply Z.ltb_lt. exact H.
Qed.

(** C4.  After a chunk load [max_id] of the request is the least event id
    of the answer, or 0 for an empty answer; the next load sends that
    [max_id], and if its answer holds only events below the [max_id] it
    was asked for, each of them is older than every event of this
    answer. *)
Theorem admin_log_max_id_is_batch_minimum (s : _AdminLogIter.Iter)
  (req : GetAdminLogRequest) (c c1 : C) (r : AdminLogResults) :
  _AdminLogIter.request s = Some req ->
  h _ (Invoke (outgoing s req)) c = (c1, Ok r) ->
  exists s' done req',
    run h (load s) c = (c1, [MkCall (Invoke (outgoing s req))], (s', Ok done)) /\
    _AdminLogIter.request s' = Some req' /\
    max_id req' = min_default0 (map ev_id (events r)) /\
    (events r = [] -> max_id req' = 0) /\
    (events r <> [] ->
       In (max_id req') (map ev_id (events r)) /\
       Forall (fun e => max_id req' <= ev_id e) (events r)) /\
    forall (left' : Limit) (b : list AdminLogEvent) (c2 c3 : C) (r2 : AdminLogResults),
      let s2 := {| _AdminLogIter.limit := _AdminLogIter.limit s';
                   _AdminLogIter.left := left'; _AdminLogIter.buffer := b;
                   _AdminLogIter.total := _AdminLogIter.total s';
                   _AdminLogIter.entity := _AdminLogIter.entity s';
                   _AdminLogIter.request := _AdminLogIter.request s' |} in
      h _ (Invoke (outgoing s2 req')) c2 = (c3, Ok r2) ->
      max_id (outgoing s2 req') = max_id req' /\
      (Forall (fun e => ev_id e < max_id (outgoing s2 req')) (events r2) ->
       Forall (fun e2 => Forall (fun e1 => ev_id e2 < ev_id e1) (events r)) (events r2)).
Proof.
  intros Hr Hh. rewrite (load_run s req c c1 r Hr Hh).
  do 3 eexists. split; [reflexivity |]. split; [reflexivity |].
  cbn [max_id _AdminLogIter.with_max_id].
  pose proof (min_default0_spec (map ev_id (events r))) as Hmin.
  assert (Hall : events r <> [] ->
            Forall (fun e => min_default0 (map ev_id (events r)) <= ev_id e) (events r)).
  { intros Hne. destruct (events r) as [| e0 es] eqn:E; [contradiction |].
    destruct Hmin as [_ Hle]. rewrite <- E in *.
    apply Forall_forall. intros e He. apply Hle. apply in_map.
    apply list_elem_of_In. exact He. }
  split; [reflexivity |]. split; [| split].
  - intros E. rewrite E. reflexivity.
  - intros Hne. split; [| auto].
    destruct (events r) as [| e0 es]; [contradiction |]. apply Hmin.
  - intros left' b c2 c3 r2 Hh2. split; [reflexivity |].
    cbn [max_id _AdminLogIter.with_max_id outgoing _AdminLogIter.with_limit].
    intros Hbelow.
    destruct (events r) as [| e0 es] eqn:E.
    + apply Forall_forall. intros e2 _. constructor.
    + rewrite <- E in *. assert (Hne : events r <> []) by (rewrite E; discriminate).
      specialize (Hall Hne).
      rewrite Forall_forall in Hbelow. rewrite Forall_forall in Hall.
      apply Forall_forall. intros e2 H2. apply Forall_forall. intros e1 H1.
      specialize (Hbelow e2 H2). specialize (Hall e1 H1). lia.
Qed.

End AdminLogChunk.

Lemma admin_log_chunk_limit_and_exhaustion_witness :
  exists req,
    _AdminLogIter.request capped_log_state = Some req /\
    _AdminLogIter.left capped_log_state = Fin 5000 /\
    scripted _ (Invoke (_AdminLogIter.with_limit req 100)) two_pages
      = (next_log two_pages, Ok (log_page [9; 8; 7])) /\
    exists s' sent_req done,
      run scripted (_AdminLogIter._load_next_chunk peer_key capped_log_state) two_pages
        = (next_log two_pages, [MkCall (Invoke sent_req)], (s', Ok done)) /\
      log_limit sent_req = Z.min 5000 100 /\
      log_limit sent_req <= 100 /\
      (done = true <-> 3 < log_limit sent_req).
Proof.
  eexists. split; [reflexivity |]. split; [reflexivity |]. split; [reflexivity |].
  destruct (admin_log_chunk_limit_and_exhaustion peer_key scripted capped_log_state
              _ two_pages (next_log two_pages) (log_page [9; 8; 7]) eq_refl eq_refl)
    as (s' & sent_req & done & H1 & _ & H2 & H3 & _ & H4).
  exists s', sent_req, done. split; [exact H1 |]. split; [exact H2 |].
  split; [exact H3 | exact H4].
Defined.

Lemma admin_log_max_id_is_batch_minimum_witness :
  exists req,
    _AdminLogIter.request first_log_state = Some req /\
    scripted _ (Invoke (_AdminLogIter.with_limit req 3)) two_pages
      = (next_log two_pages, Ok (log_page [9; 8; 7])) /\
    exists s' done req',
      run scripted (_AdminLogIter._load_next_chunk peer_key first_log_state) two_pages
        = (next_log two_pages, [MkCall (Invoke (_AdminLogIter.with_limit req 3))],
           (s', Ok done)) /\
      _AdminLogIter.request s' = Some req' /\
      max_id req' = 7.
Proof.
  eexists. split; [reflexivity |]. split; [reflexivity |].
  destruct (admin_log_max_id_is_batch_minimum peer_key scripted first_log_state
              _ two_pages (next_log two_pages) (log_page [9; 8; 7]) eq_refl eq_refl)
    as (s' & done & req' & H1 & H2 & H3 & _).
  exists s', done, req'. split; [exact H1 |]. split; [exact H2 | exact H3].
Defined.

(** The two pages of the example, loaded one after the other: the ids
    handed out go down. *)
Lemma two_pages_descend :
  let '(c1, _, (s1, r1)) :=
    run scripted (_AdminLogIter._load_next_chunk peer_key first_log_state) two_pages in
  let '(_, _, (s2, r2)) :=
    run scripted (_AdminLogIter._load_next_chunk peer_key
      {| _AdminLogIter.limit := Fin 3; _AdminLogIter.left := Fin 3;
         _AdminLogIter.buffer := []; _AdminLogIter.total := None;
         _AdminLogIter.entity := _AdminLogIter.entity s1;
         _AdminLogIter.request := _AdminLogIter.request s1 |}) c1 in
  map (fun e => ev_id (original e)) (_AdminLogIter.buffer s1) = [9; 8; 7] /\
  r1 = Ok false /\
  (max_id <$> _AdminLogIter.request s1) = Some 7 /\
  map (fun e => ev_id (original e)) (_AdminLogIter.buffer s2) = [6; 5] /\
  r2 = Ok true /\
  (max_id <$> _AdminLogIter.request s2) = Some 5.
Proof. vm_compute. repeat split. Qed.

(** ** [_ParticipantsIter._load_next_chunk]: the seen-set *)

Lemma py_dict_key (xs : list User) (k : Z) (u : User) :
  py_dict id xs !! k = Some u -> id u = k.
Proof.
  unfold py_dict.
  assert (G : forall (m : gmap Z User),
             (forall k u, m !! k = Some u -> id u = k) ->
             forall k u, fold_left (fun m x => <[id x := x]> m) xs m !! k = Some u ->
                         id u = k).
  { induction xs as [| x rest IH]; intros m Hm k' u'; simpl; [apply Hm |].
    apply IH. intros k0 u0. rewrite lookup_insert.
    destruct (decide (id x = k0)) as [<- | _]; [congruence | apply Hm]. }
  apply G. intros k0 u0. rewrite lookup_empty. discriminate.
Qed.

Section SeenSet.

Context {C : Type}.
Variable get_display_name : User -> string.
Variable h : Client C.
Hypothesis display_name_ignores_participant : ignores_participant get_display_name.

Let ok (f : _ParticipantsIter.FilterEntity) (u : User) : Prop :=
  _ParticipantsIter.call_filter_entity get_display_name f u = Ok true.

(** What holds of the items handed out so far ([acc], then the buffer). *)
Let inv (acc : list User) (s : _ParticipantsIter.Iter) : Prop :=
  NoDup (id <$> (acc ++ _ParticipantsIter.buffer s)) /\
  forall u, u ∈ acc ++ _ParticipantsIter.buffer s -> id u ∈ _ParticipantsIter.seen s.

(** How one step of the chunk code takes [s] to [s']. *)
Let extends (acc : list User) (s s' : _ParticipantsIter.Iter) : Prop :=
  exists new,
    _ParticipantsIter.buffer s' = _ParticipantsIter.buffer s ++ new /\
    inv acc s' /\
    Forall (ok (_ParticipantsIter.filter_entity s)) new /\
    _ParticipantsIter.filter_entity s' = _ParticipantsIter.filter_entity s.

Lemma extends_refl acc s : inv acc s -> extends acc s s.
Proof. intros H. exists []. rewrite app_nil_r. repeat split; auto; apply H. Qed.

Lemma extends_trans acc s1 s2 s3 :
  extends acc s1 s2 -> extends acc s2 s3 -> extends acc s1 s3.
Proof.
  intros (n1 & B1 & I1 & F1 & E1) (n2 & B2 & I2 & F2 & E2).
  exists (n1 ++ n2). rewrite B2, B1, app_assoc. repeat split; auto.
  - apply I2.
  - apply I2.
  - apply Forall_app. split; [exact F1 | rewrite <- E1; exact F2].
  - congruence.
Qed.

Lemma extends_set_requests acc s r :
  inv acc s -> extends acc s (_ParticipantsIter.set_requests r s).
Proof. intros H. exists []. simpl. rewrite app_nil_r. repeat split; auto; apply H. Qed.

Lemma inv_append acc s (u : User) (k : Z) :
  inv acc s -> id u = k -> k ∉ _ParticipantsIter.seen s ->
  inv acc (_ParticipantsIter.set_buffer (_ParticipantsIter.buffer s ++ [u])
             (_ParticipantsIter.set_seen ({[k]} ∪ _ParticipantsIter.seen s) s)).
Proof.
  intros [Hnd Hseen] Hid Hout. split; simpl.
  - rewrite app_assoc, fmap_app. simpl. apply NoDup_app. split; [exact Hnd |].
    split; [| apply NoDup_singleton].
    intros x Hx Hx'. apply list_elem_of_singleton in Hx'. subst x.
    apply list_elem_of_fmap in Hx. destruct Hx as (v & Hv1 & Hv2).
    apply Hout. rewrite <- Hid, Hv1. apply Hseen. exact Hv2.
  - intros v Hv. rewrite app_assoc in Hv. apply elem_of_app in Hv.
    destruct Hv as [Hv | Hv].
    + apply Hseen in Hv. set_solver.
    + apply list_elem_of_singleton in Hv. subst v. set_solver.
Qed.

Lemma ok_with_participant f u p : ok f u -> ok f (with_participant u p).
Proof.
  unfold ok, _ParticipantsIter.call_filter_entity, _ParticipantsIter.getattr_username.
  rewrite display_name_ignores_participant. auto.
Qed.

Lemma channel_loop_extends (users : gmap Z User) (ps : list ChannelParticipant)
  (acc : list User) (s s' : _ParticipantsIter.Iter) (r : Result unit) :
  (forall k u, users !! k = Some u -> id u = k) ->
  _ParticipantsIter.channel_loop get_display_name users ps s = (s', r) ->
  inv acc s -> extends acc s s'.
Proof.
  intros Hkey. revert s. induction ps as [| p rest IH]; intros s Hrun Hinv; simpl in Hrun.
  - inversion Hrun; subst. apply extends_refl, Hinv.
  - destruct (users !! user_id p) as [user |] eqn:Eu;
      [| inversion Hrun; subst; apply extends_refl, Hinv].
    destruct (_ParticipantsIter.call_filter_entity get_display_name
                (_ParticipantsIter.filter_entity s) user) as [[|] | e] eqn:Ef;
      [| apply IH; auto | inversion Hrun; subst; apply extends_refl, Hinv].
    destruct (decide (id user ∈ _ParticipantsIter.seen s)) as [Hin | Hout];
      [apply IH; auto |].
    apply Hkey in Eu as Hid.
    assert (Hnew : inv acc
              (_ParticipantsIter.set_buffer
                 (_ParticipantsIter.buffer s ++ [with_participant user (SetTo p)])
                 (_ParticipantsIter.set_seen
                    ({[user_id p]} ∪ _ParticipantsIter.seen s) s))).
    { apply inv_append; [exact Hinv | exact Hid | rewrite <- Hid; exact Hout]. }
    eapply extends_trans; [| apply IH; [exact Hrun | exact Hnew]].
    exists [with_participant user (SetTo p)]. split; [reflexivity |].
    split; [exact Hnew |]. split; [| reflexivity].
    constructor; [| constructor]. apply ok_with_participant. exact Ef.
Qed.

Lemma results_loop_extends (results : list ChannelParticipants) (n : nat)
  (acc : list User) (s s' : _ParticipantsIter.Iter) (r : Result unit) :
  _ParticipantsIter.results_loop get_display_name results n s = (s', r) ->
  inv acc s -> extends acc s s'.
Proof.
  revert s. induction n as [| i IH]; intros s Hrun Hinv; simpl in Hrun.
  - inversion Hrun; subst. apply extends_refl, Hinv.
  - destruct (results !! i) as [part |];
      [| inversion Hrun; subst; apply extends_refl, Hinv].
    destruct (users part) as [| u0 us] eqn:Eus.
    + eapply extends_trans; [apply extends_set_requests, Hinv |].
      apply IH; [exact Hrun | exact Hinv].
    + rewrite <- Eus in Hrun.
      match type of Hrun with
      | context [_ParticipantsIter.channel_loop _ ?d ?ps ?s0] =>
        destruct (_ParticipantsIter.channel_loop get_display_name d ps s0)
          as [s1 [[] | e]] eqn:Ec;
        (assert (Hstep : extends acc s s1);
         [ eapply extends_trans; [apply extends_set_requests, Hinv |];
           eapply channel_loop_extends; [apply py_dict_key | exact Ec | exact Hinv] |])
      end.
      * eapply extends_trans; [exact Hstep |].
        apply IH; [exact Hrun |]. destruct Hstep as (_ & _ & I & _). exact I.
      * inversion Hrun; subst. exact Hstep.
Qed.

Lemma load_extends (acc : list User) (s s' : _ParticipantsIter.Iter)
  (c c' : C) (t : list Call) (r : Result bool) :
  run h (_ParticipantsIter._load_next_chunk get_display_name s) c = (c', t, (s', r)) ->
  inv acc s -> extends acc s s'.
Proof.
  intros Hrun Hinv. unfold _ParticipantsIter._load_next_chunk in Hrun.
  cbn -[run] in Hrun.
  destruct (_ParticipantsIter.requests s) as [| r0 rs] eqn:Er.
  - inversion Hrun; subst. apply extends_refl, Hinv.
  - cbn -[run] in Hrun.
    destruct (gt_limit (req_offset r0) (_ParticipantsIter.limit s)).
    + inversion Hrun; subst. apply extends_set_requests, Hinv.
    + cbn -[run] in Hrun. rewrite run_vis in Hrun.
      match type of Hrun with
      | context [h ?X ?e c] => destruct (h X e c) as [c1 [results | e']]
      end; cbn in Hrun.
      * match type of Hrun with
        | context [_ParticipantsIter.results_loop _ ?a ?b ?s0] =>
          destruct (_ParticipantsIter.results_loop get_display_name a b s0)
            as [s1 [[] | e']] eqn:El;
          (assert (Hstep : extends acc s s1);
           [ eapply extends_trans; [apply extends_set_requests, Hinv |];
             eapply results_loop_extends; [exact El | exact Hinv] |])
        end; cbn in Hrun; inversion Hrun; subst; exact Hstep.
      * inversion Hrun; subst. apply extends_set_requests, Hinv.
Qed.

Lemma chunks_handed_out (n : nat) (acc : list User) (s s' : _ParticipantsIter.Iter)
  (c c' : C) (t : list Call) (out : list User) :
  run h (chunks get_display_name n s) c = (c', t, (s', out)) ->
  NoDup (id <$> acc) ->
  (forall u, u ∈ acc -> id u ∈ _ParticipantsIter.seen s) ->
  NoDup (id <$> (acc ++ out)) /\
  (forall u, u ∈ acc ++ out -> id u ∈ _ParticipantsIter.seen s') /\
  Forall (ok (_ParticipantsIter.filter_entity s)) out.
Proof.
  revert acc s c c' t out. induction n as [| n IH]; intros acc s c c' t out Hrun Hnd Hseen.
  - inversion Hrun; subst. rewrite app_nil_r. auto.
  - cbn [chunks] in Hrun. rewrite run_pbind in Hrun.
    destruct (run h (_ParticipantsIter._load_next_chunk get_display_name
                       (_ParticipantsIter.set_buffer [] s)) c)
      as [[c1 t1] [s1 r1]] eqn:El.
    apply (load_extends acc) in El;
      [| split; simpl; rewrite app_nil_r; auto].
    destruct El as (new & B & [I1 I2] & F & E). simpl in B, F, E.
    destruct r1 as [b | e].
    + rewrite run_pbind in Hrun.
      destruct (run h (chunks get_display_name n s1) c1) as [[c2 t2] [s2 rest]] eqn:En.
      cbn in Hrun. inversion Hrun; subst.
      apply (IH (acc ++ _ParticipantsIter.buffer s1)) in En; [| exact I1 | exact I2].
      rewrite <- app_assoc in En. destruct En as (N1 & N2 & N3).
      repeat split; auto.
      apply Forall_app. split; [exact F | rewrite <- E; exact N3].
    + cbn in Hrun. inversion Hrun; subst. rewrite app_nil_r.
      repeat split; auto.
      intros u Hu. apply I2. apply elem_of_app. left. exact Hu.
Qed.

(** C7.  Whatever the client answers and however many chunks are loaded,
    no two of the items handed out have the same id, and each of them
    passes [self.filter_entity] as the iterator holds it (the one [_init]
    stored). *)
Theorem handed_out_distinct_and_filtered (n : nat) (s : _ParticipantsIter.Iter)
  (c : C) (yielded : list User) :
  yielded `sublist_of` snd (snd (run h (chunks get_display_name n s) c)) ->
  NoDup (id <$> yielded) /\
  Forall (fun u => _ParticipantsIter.call_filter_entity get_display_name
                     (_ParticipantsIter.filter_entity s) u = Ok true) yielded.
Proof.
  destruct (run h (chunks get_display_name n s) c) as [[c' t] [s' out]] eqn:E.
  simpl. intros Hsub.
  destruct (chunks_handed_out n [] s s' c c' t out E) as (H1 & _ & H3).
  { constructor. }
  { intros u Hu. inversion Hu. }
  simpl in H1. split.
  - eapply sublist_NoDup; [exact H1 |]. apply fmap_sublist. exact Hsub.
  - apply Forall_forall. intros u Hu.
    rewrite Forall_forall in H3. apply H3. eapply elem_of_sublist; eauto.
Qed.

End SeenSet.

Lemma handed_out_distinct_and_filtered_witness :
  let out := snd (snd (run scripted (chunks first_name_only 2 aggressive_state)
                         overlapping_channel)) in
  ignores_participant first_name_only /\
  out `sublist_of` out /\
  id <$> out = [2; 1; 3] /\
  NoDup (id <$> out) /\
  Forall (fun u => _ParticipantsIter.call_filter_entity first_name_only
                     (_ParticipantsIter.filter_entity aggressive_state) u = Ok true) out.
Proof.
  intros out.
  assert (Hign : ignores_participant first_name_only) by (intros u p; reflexivity).
  assert (Hsub : out `sublist_of` out) by reflexivity.
  split; [exact Hign |]. split; [exact Hsub |]. split; [reflexivity |].
  exact (handed_out_distinct_and_filtered first_name_only scripted Hign 2
           aggressive_state overlapping_channel out Hsub).
Defined.

(** * Further properties *)

(** ** The chat action over its lifetime *)

Lemma quotient_exponent_nonneg (a b : Z) :
  0 < b -> b <= a -> 0 <= quotient_exponent a b.
Proof.
  intros Hb Hab. unfold quotient_exponent.
  pose proof (Z.log2_le_mono b a Hab) as Hl.
  set (e0 := Z.log2 a - Z.log2 b) in *.
  destruct (Z.leb_spec (b * pow2 e0) (a * pow2 (- e0))) as [_ | Hlt]; [lia |].
  assert (e0 <> 0); [| lia].
  intros E. rewrite E in Hlt. change (pow2 (- 0)) with 1 in Hlt.
  change (pow2 0) with 1 in Hlt. lia.
Qed.

Lemma quotient_exponent_spec (a b : Z) :
  0 < a -> 0 < b -> 0 <= quotient_exponent a b ->
  b * 2 ^ quotient_exponent a b <= a < b * 2 ^ (quotient_exponent a b + 1).
Proof.
  intros Ha Hb. unfold quotient_exponent.
  destruct (Z.log2_spec a Ha) as [La Ua]. destruct (Z.log2_spec b Hb) as [Lb Ub].
  pose proof (Z.log2_nonneg a). pose proof (Z.log2_nonneg b).
  set (la := Z.log2 a) in *. set (lb := Z.log2 b) in *.
  set (e0 := la - lb).
  destruct (Z.leb_spec (b * pow2 e0) (a * pow2 (- e0))) as [Hle | Hlt]; intros He.
  - assert (P1 : pow2 e0 = 2 ^ e0) by (unfold pow2; rewrite Z.max_l by lia; reflexivity).
    assert (P2 : pow2 (- e0) = 1) by (unfold pow2; rewrite Z.max_r by lia; reflexivity).
    rewrite P1, P2 in Hle. split; [lia |].
    assert (E : Z.succ la = (e0 + 1) + lb) by lia.
    rewrite E, Z.pow_add_r in Ua by lia.
    assert (0 < 2 ^ (e0 + 1)) by (apply Z.pow_pos_nonneg; lia). nia.
  - assert (Hpos : 1 <= e0).
    { destruct (Z.eq_dec e0 0) as [E | E]; [| lia].
      rewrite E in Hlt. change (pow2 (- 0)) with 1 in Hlt.
      change (pow2 0) with 1 in Hlt.
      assert (lb = la) by lia. subst lb. lia. }
    assert (P1 : pow2 e0 = 2 ^ e0) by (unfold pow2; rewrite Z.max_l by lia; reflexivity).
    assert (P2 : pow2 (- e0) = 1) by (unfold pow2; rewrite Z.max_r by lia; reflexivity).
    rewrite P1, P2 in Hlt. replace (e0 - 1 + 1) with e0 by lia. split; [| lia].
    assert (E : la = (e0 - 1) + Z.succ lb) by lia.
    rewrite E, Z.pow_add_r in La by lia.
    assert (0 < 2 ^ (e0 - 1)) by (apply Z.pow_pos_nonneg; lia). nia.
Qed.

(** When [n / d] raises: [ZeroDivisionError] for [d = 0];
    [OverflowError] only from a quotient of size [2 ** 1023] on, and
    always from [2 ** 1024] on. *)
Lemma true_divide_errors (n d : Z) :
  match true_divide n d with
  | Ok _ => d <> 0 /\ Z.abs n < 2 ^ 1024 * Z.abs d
  | Err e => (e = ZeroDivisionError /\ d = 0) \/
             (e = OverflowError /\ d <> 0 /\ 2 ^ 1023 * Z.abs d <= Z.abs n)
  end.
Proof.
  unfold true_divide.
  destruct (Z.eqb_spec d 0) as [-> | Hd]; [auto |].
  destruct (Z.eqb_spec n 0) as [-> | Hn].
  { split; [exact Hd |]. assert (0 < 2 ^ 1024) by (apply Z.pow_pos_nonneg; lia). lia. }
  set (a := Z.abs n). set (b := Z.abs d).
  assert (Ha : 0 < a) by (unfold a; lia). assert (Hb : 0 < b) by (unfold b; lia).
  set (e := quotient_exponent a b).
  set (u := Z.max e (-1022) - 52).
  destruct (Z.leb_spec 0 u) as [Hu | Hu]; cbn [andb].
  - assert (He52 : 52 <= e) by lia.
    assert (Eu : u = e - 52) by lia.
    destruct (quotient_exponent_spec a b Ha Hb ltac:(fold e; lia)) as [Lo Up]. fold e in Lo, Up.
    assert (P1 : pow2 (- u) = 1) by (unfold pow2; rewrite Z.max_r by lia; reflexivity).
    assert (P2 : pow2 u = 2 ^ u) by (unfold pow2; rewrite Z.max_l by lia; reflexivity).
    rewrite P1, P2, Z.mul_1_r.
    assert (Hpu : 0 < 2 ^ u) by (apply Z.pow_pos_nonneg; lia).
    assert (E1 : 2 ^ e = 2 ^ 52 * 2 ^ u) by (rewrite <- Z.pow_add_r by lia; f_equal; lia).
    assert (E2 : 2 ^ (e + 1) = 2 ^ 53 * 2 ^ u) by (rewrite <- Z.pow_add_r by lia; f_equal; lia).
    set (m := round_half_even a (b * 2 ^ u)).
    assert (Hm1 : m <= 2 ^ 53) by (apply round_half_even_le; nia).
    assert (Hm0 : 2 ^ 52 <= m) by (apply round_half_even_ge; nia).
    destruct (Z.leb_spec (2 ^ 1024) (m * 2 ^ u)) as [Hov | Hno].
    + right. split; [reflexivity |]. split; [exact Hd |].
      assert (H1 : 2 ^ 1024 <= 2 ^ (e + 1)) by (rewrite E2; nia).
      apply (Z.pow_le_mono_r_iff 2) in H1; [| lia | lia].
      assert (H2 : 2 ^ 1023 <= 2 ^ e) by (apply Z.pow_le_mono_r; lia).
      nia.
    + split; [exact Hd |].
      assert (H1 : 2 ^ e < 2 ^ 1024) by (rewrite E1; nia).
      apply (Z.pow_lt_mono_r_iff 2) in H1; [| lia | lia].
      assert (H2 : 2 ^ (e + 1) <= 2 ^ 1024) by (apply Z.pow_le_mono_r; lia).
      nia.
  - split; [exact Hd |].
    destruct (Z.le_gt_cases b a) as [Hba | Hab].
    + pose proof (quotient_exponent_nonneg a b Hb Hba) as He0. fold e in He0.
      destruct (quotient_exponent_spec a b Ha Hb ltac:(fold e; lia)) as [_ Up]. fold e in Up.
      assert (H2 : 2 ^ (e + 1) <= 2 ^ 1024) by (apply Z.pow_le_mono_r; lia).
      nia.
    + assert (1 <= 2 ^ 1024) by (apply (Z.pow_le_mono_r 2 0 1024); lia). nia.
Qed.

(** [progress] touches nothing but the progress field of the controller's
    own action: every other object is as before and no object changes its
    class; on an action without the field it does nothing, also for
    [total = 0].  With the field it raises [ZeroDivisionError] exactly for
    [total = 0]; the one other exception is the [OverflowError] of the
    division, which a quotient below [2 ** 1023] never gives and one from
    [2 ** 1024] on always gives. *)
Theorem progress_outcome (c : _ChatAction) (current total : Z) (st : Store) :
  match progress c current total st with
  | Ok st' =>
    (forall l, _action c <> ObjAction l -> st' !! l = st !! l) /\
    (forall l, (fun a => set_progress a 0) <$> st' !! l
               = (fun a => set_progress a 0) <$> st !! l) /\
    ((deref st (_action c) ≫= get_progress) = None -> st' = st) /\
    (is_Some (deref st (_action c) ≫= get_progress) ->
     total <> 0 /\ Z.abs current < 2 ^ 1024 * Z.abs total)
  | Err e =>
    is_Some (deref st (_action c) ≫= get_progress) /\
    ((e = ZeroDivisionError /\ total = 0) \/
     (e = OverflowError /\ total <> 0 /\ 2 ^ 1023 * Z.abs total <= Z.abs current))
  end.
Proof.
  unfold progress.
  destruct (_action c) as [s | | l | sid |] eqn:Ea; simpl;
    try (split; [| split; [| split]]; auto; intros [? ?]; discriminate).
  destruct (st !! l) as [a |] eqn:El; simpl;
    [| split; [| split; [| split]]; auto; intros [? ?]; discriminate].
  destruct (has_progress a) eqn:Hp.
  - pose proof (true_divide_errors current total) as Hdiv.
    unfold py_round_truediv.
    destruct (true_divide current total) as [x | e].
    + split; [| split; [| split]].
      * intros l' Hl'. apply lookup_insert_ne. congruence.
      * intros l'. rewrite lookup_insert. destruct (decide (l = l')) as [<- | _]; [| reflexivity].
        rewrite El. simpl. destruct a; reflexivity.
      * destruct a; discriminate.
      * intros _. exact Hdiv.
    + split; [| exact Hdiv]. destruct a; try discriminate; eexists; reflexivity.
  - split; [| split; [| split]]; auto.
    destruct a; try discriminate; intros [? ?]; discriminate.
Qed.

(** The two exceptions of [progress] at work: a zero total, and a quotient
    too large for a [float]. *)
Lemma progress_raises_examples :
  progress document_action 1 0 class_store = Err ZeroDivisionError /\
  progress document_action (10 ^ 400) 1 class_store = Err OverflowError /\
  (exists st', progress document_action (3 * 2 ^ 60 - 1) (2 ^ 61) class_store = Ok st' /\
     deref st' (_action document_action) = Some (SendMessageUploadDocumentAction 200)).
Proof.
  split; [vm_compute; reflexivity |]. split; [vm_compute; reflexivity |].
  eexists. split; vm_compute; reflexivity.
Qed.

Lemma resume_created_start (c : _ChatAction) (w : World) (p : InputPeer)
  (c1 : _ChatAction) (w1 : World) :
  __aenter__ c (Ok p) w = (c1, w1, Ok tt) ->
  tasks w1 !! length (tasks w) = Some Created /\
  _task c1 = Some (length (tasks w)) /\ _running c1 = true /\
  _request c1 = Some {| peer := EntityInput p; action_ref := _action c |} /\
  _chat c1 = EntityInput p /\ _auto_cancel c1 = _auto_cancel c /\
  sent w1 = sent w /\ store w1 = store w.
Proof.
  unfold __aenter__. intros H. inversion H; subst; simpl. repeat split.
  rewrite lookup_app_r by lia. rewrite Nat.sub_diag. reflexivity.
Qed.

(** [__aexit__] in terms of the task's state when the scope is left. *)
Lemma aexit_unfold (c : _ChatAction) (reply : Result unit) (w : World)
  (tid : nat) (s : TaskState) :
  _task c = Some tid -> tasks w !! tid = Some s ->
  let c0 := set_running c false in
  let w1 := resume c0 tid Cancel w in
  let w2 := match snd (_update c0 s Cancel w) with
            | AwaitCancelCall => resume c0 tid (Reply reply) w1
            | _ => w1
            end in
  __aexit__ c reply w =
  match tasks w2 !! tid with
  | Some (Done r) =>
    match await_result r with
    | Ok _ | Err CancelledError => (clear_task c0, w2, Ok tt)
    | Err e => (c0, w2, Err e)
    end
  | _ => (c0, w2, Err AttributeError)
  end.
Proof.
  intros Ht Hs. unfold __aexit__. cbn [set_running _task]. rewrite Ht.
  cbv zeta.
  destruct (resume_task (set_running c false) tid Cancel w s Hs) as (H1 & _ & _).
  rewrite H1.
  destruct (snd (_update (set_running c false) s Cancel w)) as [| | | | r]; reflexivity.
Qed.

(** Leaving the scope before the task ever ran sends nothing, not even the
    cancel request: the task is cancelled before it enters its [try]. *)
Theorem enter_then_exit_sends_nothing (c : _ChatAction) (p : InputPeer)
  (reply : Result unit) (w : World) :
  let '(c1, w1, _) := __aenter__ c (Ok p) w in
  let '(c2, w2, r) := __aexit__ c1 reply w1 in
  sent w2 = sent w /\ r = Ok tt /\
  tasks w2 = tasks w ++ [Done Cancelled] /\
  _task c2 = None /\ _running c2 = false.
Proof.
  destruct (__aenter__ c (Ok p) w) as [[c1 w1] r1] eqn:E.
  assert (r1 = Ok tt) by (unfold __aenter__ in E; inversion E; reflexivity). subst r1.
  destruct (resume_created_start c w p c1 w1 E) as (H1 & H2 & _ & _ & _ & _ & H7 & _).
  rewrite (aexit_unfold c1 reply w1 _ Created H2 H1). cbn [_update snd].
  destruct (resume_task (set_running c1 false) _ Cancel w1 Created H1) as (G1 & G2 & _).
  cbn [_update snd fst] in G1, G2. rewrite G1. cbn.
  repeat split; [congruence |].
  unfold resume. rewrite H1. cbn.
  unfold __aenter__ in E. inversion E; subst. cbn.
  rewrite insert_app_r_alt by lia. rewrite Nat.sub_diag. reflexivity.
Qed.

Lemma rounds_sends (c : _ChatAction) (tid : nat) (r : SetTypingRequest) (k : nat) (w : World) :
  _running c = true -> _request c = Some r -> tasks w !! tid = Some AwaitCall ->
  tasks (rounds c tid k w) !! tid = Some AwaitCall /\
  sent (rounds c tid k w) = sent w ++ repeat (serialize (store w) r) k /\
  store (rounds c tid k w) = store w.
Proof.
  intros Hrun Hreq. revert w. induction k as [| k IH]; intros w Hs; simpl.
  - rewrite app_nil_r. auto.
  - destruct (resume_task c tid (Reply (Ok tt)) w AwaitCall Hs) as (A1 & A2 & A3).
    cbn [_update snd fst] in A1, A2.
    destruct (resume_task c tid Timer _ AwaitSleep A1) as (B1 & B2 & B3).
    unfold _update, loop_head in B1, B2. rewrite Hrun, Hreq in B1, B2.
    cbn [snd fst send sent] in B1, B2.
    destruct (IH _ B1) as (I1 & I2 & I3).
    split; [exact I1 |]. split.
    + rewrite I2, B2, B3, A2, A3, <- app_assoc. reflexivity.
    + rewrite I3, B3, A3. reflexivity.
Qed.

(** A scope that is entered, kept while the task sends its request and
    [k] more after it, and then left: the client has received the request
    [k + 1] times, each time as built at entry, and after them the cancel
    request if [auto_cancel] is set, and nothing else. *)
Theorem periodic_sends_then_cancel (c : _ChatAction) (p : InputPeer) (k : nat) (w : World) :
  let '(c1, w1, _) := __aenter__ c (Ok p) w in
  let tid := length (tasks w) in
  let w2 := rounds c1 tid k (resume c1 tid Start w1) in
  let '(c3, w3, r) := __aexit__ c1 (Ok tt) w2 in
  sent w3 = sent w
            ++ repeat (serialize (store w)
                         {| peer := EntityInput p; action_ref := _action c |}) (S k)
            ++ (if _auto_cancel c then [cancel_wire (EntityInput p)] else []) /\
  r = Ok tt /\
  tasks w3 !! tid = Some (Done Returned) /\
  _task c3 = None /\ _running c3 = false.
Proof.
  destruct (__aenter__ c (Ok p) w) as [[c1 w1] r1] eqn:E.
  assert (r1 = Ok tt) by (unfold __aenter__ in E; inversion E; reflexivity). subst r1.
  destruct (resume_created_start c w p c1 w1 E)
    as (H1 & H2 & H3 & H4 & H5 & H6 & H7 & H8).
  set (tid := length (tasks w)) in *. cbv zeta.
  destruct (resume_task c1 tid Start w1 Created H1) as (A1 & A2 & A3).
  unfold _update, loop_head in A1, A2. rewrite H3, H4 in A1, A2.
  cbn [snd fst send sent] in A1, A2.
  destruct (rounds_sends c1 tid _ k _ H3 H4 A1) as (B1 & B2 & B3).
  set (w2 := rounds c1 tid k (resume c1 tid Start w1)) in *.
  rewrite (aexit_unfold c1 (Ok tt) w2 tid AwaitCall H2 B1).
  set (c0 := set_running c1 false).
  assert (Hac : _auto_cancel c0 = _auto_cancel c) by exact H6.
  assert (Hch : _chat c0 = EntityInput p) by exact H5.
  destruct (resume_task c0 tid Cancel w2 AwaitCall B1) as (C1 & C2 & C3).
  unfold _update, on_cancelled in C1, C2 |- *. rewrite Hac, Hch in C1, C2 |- *.
  assert (Hsent : sent w2 = sent w ++ repeat (serialize (store w)
                    {| peer := EntityInput p; action_ref := _action c |}) (S k)).
  { rewrite B2, A2, A3, H7, H8, <- app_assoc. reflexivity. }
  destruct (_auto_cancel c); cbn [snd fst send sent] in C1, C2 |- *.
  - destruct (resume_task c0 tid (Reply (Ok tt)) _ AwaitCancelCall C1) as (D1 & D2 & _).
    cbn [_update snd fst] in D1, D2. rewrite D1. cbn.
    repeat split; auto. rewrite D2, C2, Hsent, <- app_assoc. reflexivity.
  - rewrite C1. cbn. repeat split; auto.
    rewrite C2, Hsent, app_nil_r. reflexivity.
Qed.

(** An error of the periodic request.  [ConnectionError] ends the loop
    quietly: leaving the scope then returns and sends nothing.  Any other
    exception stays in the task until the scope is left, where
    [__aexit__] raises it, sends nothing and keeps [_task]. *)
Theorem loop_error_surfaces_at_exit (c : _ChatAction) (w : World) (tid : nat)
  (e : exn) (reply : Result unit) :
  _task c = Some tid -> tasks w !! tid = Some AwaitCall -> e <> CancelledError ->
  let w1 := resume c tid (Reply (Err e)) w in
  let '(c', w2, r) := __aexit__ c reply w1 in
  sent w2 = sent w /\ _running c' = false /\
  (e = ConnectionError -> r = Ok tt /\ _task c' = None) /\
  (e <> ConnectionError -> r = Err e /\ _task c' = Some tid).
Proof.
  intros Ht Hs He. cbv zeta.
  destruct (resume_task c tid (Reply (Err e)) w AwaitCall Hs) as (A1 & A2 & _).
  set (w1 := resume c tid (Reply (Err e)) w) in *.
  assert (Hd : exists res, tasks w1 !! tid = Some (Done res) /\ sent w1 = sent w /\
                 (e = ConnectionError -> res = Returned) /\
                 (e <> ConnectionError -> res = Failed e)).
  { destruct e; try contradiction; cbn [_update snd fst] in A1, A2;
      eexists; (split; [exact A1 |]); (split; [exact A2 |]);
      split; intros; congruence. }
  destruct Hd as (res & D1 & D2 & D3 & D4).
  rewrite (aexit_unfold c reply w1 tid (Done res) Ht D1). cbn [_update snd].
  destruct (resume_task (set_running c false) tid Cancel w1 (Done res) D1) as (G1 & G2 & _).
  cbn [_update snd fst] in G1, G2. rewrite G1.
  assert (Hcase : e = ConnectionError \/ e <> ConnectionError)
    by (destruct e; auto; right; discriminate).
  destruct Hcase as [-> | Hne].
  - rewrite (D3 eq_refl). cbn. repeat split; try congruence.
  - rewrite (D4 Hne). destruct e; try contradiction; cbn; repeat split; try congruence.
Qed.

Lemma loop_error_surfaces_at_exit_witness :
  let c := fst entered in
  let w := resume c 0%nat Start (snd entered) in
  RemoteError 420 <> CancelledError /\
  let w1 := resume c 0%nat (Reply (Err (RemoteError 420))) w in
  let '(c', w2, r) := __aexit__ c (Ok tt) w1 in
  sent w2 = sent w /\ _running c' = false /\
  (RemoteError 420 = ConnectionError -> r = Ok tt /\ _task c' = None) /\
  (RemoteError 420 <> ConnectionError -> r = Err (RemoteError 420) /\ _task c' = Some 0%nat).
Proof.
  intros c w.
  assert (H : RemoteError 420 <> CancelledError) by discriminate.
  split; [exact H |].
  exact (loop_error_surfaces_at_exit c w 0%nat (RemoteError 420) (Ok tt) eq_refl eq_refl H).
Defined.

(** Progress reported between two sends is what the second send carries:
    the request built at entry holds the action by reference, so the
    stored value, a hundred times the rounded [float] quotient [v], goes
    out without the request being rebuilt. *)
Theorem progress_reaches_next_send (c : _ChatAction) (l : nat) (a : SendMessageAction)
  (p : InputPeer) (current total v : Z) (w : World) :
  _action c = ObjAction l -> store w !! l = Some a -> has_progress a = true ->
  py_round_truediv current total = Ok v ->
  let '(c1, w1, _) := __aenter__ c (Ok p) w in
  let tid := length (tasks w) in
  let w2 := resume c1 tid (Reply (Ok tt)) (resume c1 tid Start w1) in
  exists st',
    progress c1 current total (store w2) = Ok st' /\
    sent (resume c1 tid Timer {| store := st'; sent := sent w2; tasks := tasks w2 |}) =
    sent w ++ [ {| w_peer := EntityInput p; w_action := Some a |};
                {| w_peer := EntityInput p;
                   w_action := Some (set_progress a (100 * v)) |} ].
Proof.
  intros Ha Hl Hp Ht.
  destruct (__aenter__ c (Ok p) w) as [[c1 w1] r1] eqn:E.
  assert (r1 = Ok tt) by (unfold __aenter__ in E; inversion E; reflexivity). subst r1.
  assert (Ha1 : _action c1 = ObjAction l)
    by (unfold __aenter__ in E; inversion E; subst; exact Ha).
  destruct (resume_created_start c w p c1 w1 E)
    as (H1 & H2 & H3 & H4 & H5 & H6 & H7 & H8).
  set (tid := length (tasks w)) in *. cbv zeta.
  destruct (resume_task c1 tid Start w1 Created H1) as (A1 & A2 & A3).
  unfold _update, loop_head in A1, A2. rewrite H3, H4 in A1, A2.
  cbn [snd fst send sent] in A1, A2.
  destruct (resume_task c1 tid (Reply (Ok tt)) _ AwaitCall A1) as (B1 & B2 & B3).
  cbn [_update snd fst] in B1, B2.
  set (w2 := resume c1 tid (Reply (Ok tt)) (resume c1 tid Start w1)) in *.
  assert (Hst : store w2 = store w) by (rewrite B3, A3, H8; reflexivity).
  unfold progress. rewrite Ha1, Hst, Hl, Hp, Ht.
  eexists. split; [reflexivity |].
  match goal with
  | |- sent (resume c1 tid Timer ?w3) = _ =>
    destruct (resume_task c1 tid Timer w3 AwaitSleep B1) as (C1 & C2 & C3); rewrite C2
  end.
  unfold _update, loop_head. rewrite H3, H4. cbn [fst send sent store].
  rewrite B2, A2, H7, H8, <- app_assoc. cbn [app]. f_equal. f_equal.
  - unfold serialize. cbn [peer action_ref]. rewrite Ha. cbn [deref].
    rewrite Hl. reflexivity.
  - f_equal. unfold serialize. cbn [peer action_ref]. rewrite Ha. cbn [deref].
    rewrite lookup_insert_eq. reflexivity.
Qed.

Lemma progress_reaches_next_send_witness :
  _action document_action = ObjAction 13%nat /\
  store idle_world !! 13%nat = Some (SendMessageUploadDocumentAction 1) /\
  py_round_truediv (3 * 2 ^ 60 - 1) (2 ^ 61) = Ok 2 /\
  let '(c1, w1, _) := __aenter__ document_action (Ok (InputPeerUser 5 50)) idle_world in
  let w2 := resume c1 0%nat (Reply (Ok tt)) (resume c1 0%nat Start w1) in
  exists st',
    progress c1 (3 * 2 ^ 60 - 1) (2 ^ 61) (store w2) = Ok st' /\
    sent (resume c1 0%nat Timer {| store := st'; sent := sent w2; tasks := tasks w2 |}) =
    [ {| w_peer := EntityInput (InputPeerUser 5 50);
         w_action := Some (SendMessageUploadDocumentAction 1) |};
      {| w_peer := EntityInput (InputPeerUser 5 50);
         w_action := Some (SendMessageUploadDocumentAction 200) |} ].
Proof.
  assert (H : py_round_truediv (3 * 2 ^ 60 - 1) (2 ^ 61) = Ok 2)
    by (vm_compute; reflexivity).
  split; [reflexivity |]. split; [reflexivity |]. split; [exact H |].
  exact (progress_reaches_next_send document_action 13%nat
           (SendMessageUploadDocumentAction 1) (InputPeerUser 5 50)
           (3 * 2 ^ 60 - 1) (2 ^ 61) 2 idle_world
           eq_refl eq_refl eq_refl H).
Defined.

(** Two controllers made from the same tag hold one and the same action
    object, the one created in the class body: progress reported through
    the first, a hundred times the rounded [float] quotient [v], is what
    the second will send. *)
Theorem same_tag_shares_action_object (st : Store) (s1 s2 : string) (e1 e2 : Entity)
  (d1 d2 : Z) (ac1 ac2 : bool) (c1 c2 : _ChatAction) (a : SendMessageAction)
  (current total v : Z) :
  lower s1 = lower s2 ->
  action st e1 (ObjStr s1) d1 ac1 = Manager c1 ->
  action st e2 (ObjStr s2) d2 ac2 = Manager c2 ->
  deref st (_action c2) = Some a -> has_progress a = true ->
  py_round_truediv current total = Ok v ->
  _action c1 = _action c2 /\
  exists st',
    progress c1 current total st = Ok st' /\
    deref st' (_action c2) = Some (set_progress a (100 * v)).
Proof.
  intros Hlow H1 H2 Hd Hp Ht. unfold action, resolve_action in H1, H2.
  rewrite Hlow in H1.
  destruct (_str_mapping !! lower s2) as [l |]; [| discriminate].
  assert (A1 : _action c1 = ObjAction l).
  { destruct (deref st (ObjAction l)) as [[] |]; inversion H1; reflexivity. }
  assert (A2 : _action c2 = ObjAction l).
  { destruct (deref st (ObjAction l)) as [[] |]; inversion H2; reflexivity. }
  split; [congruence |].
  rewrite A2 in Hd |- *. simpl in Hd. unfold progress. rewrite A1, Hd, Hp, Ht.
  eexists. split; [reflexivity |]. simpl. apply lookup_insert_eq.
Qed.

Lemma same_tag_shares_action_object_witness :
  py_round_truediv 5 2 = Ok 2 /\
  exists c1 c2,
    action class_store (EntityName "ann") (ObjStr "Photo") 4 true = Manager c1 /\
    action class_store (EntityName "ben") (ObjStr "photo") 9 false = Manager c2 /\
    _action c1 = _action c2 /\
    exists st',
      progress c1 5 2 class_store = Ok st' /\
      deref st' (_action c2) = Some (SendMessageUploadPhotoAction 200).
Proof.
  assert (H : py_round_truediv 5 2 = Ok 2) by (vm_compute; reflexivity).
  split; [exact H |].
  do 2 eexists. split; [reflexivity |]. split; [reflexivity |].
  exact (same_tag_shares_action_object class_store "Photo" "photo"
           (EntityName "ann") (EntityName "ben") 4 9 true false _ _
           (SendMessageUploadPhotoAction 1) 5 2 2
           eq_refl eq_refl eq_refl eq_refl eq_refl H).
Defined.

Lemma lower_char_idempotent (ch : ascii) : lower_char (lower_char ch) = lower_char ch.
Proof. destruct ch as [[] [] [] [] [] [] [] []]; reflexivity. Qed.

Lemma lower_idempotent (s : string) : lower (lower s) = lower s.
Proof.
  induction s as [| ch t IH]; simpl; [reflexivity |].
  rewrite lower_char_idempotent, IH. reflexivity.
Qed.

(** A tag means the same in any letter case: [action] gives for [s] what
    it gives for [s.lower()], and rejects the one when it rejects the
    other. *)
Theorem action_tag_case_insensitive (st : Store) (entity : Entity) (s : string)
  (delay : Z) (auto_cancel : bool) :
  match action st entity (ObjStr s) delay auto_cancel with
  | Raises _ => action st entity (ObjStr (lower s)) delay auto_cancel
                = Raises (no_such_action (lower s))
  | r => action st entity (ObjStr (lower s)) delay auto_cancel = r
  end.
Proof.
  unfold action, resolve_action. rewrite lower_idempotent.
  destruct (_str_mapping !! lower s) as [l |]; [| reflexivity].
  destruct (deref st (ObjAction l)) as [[] |]; reflexivity.
Qed.

(** ** The dict built from the users of a response *)

Lemma py_dict_snoc {V : Type} (key : V -> Z) (xs : list V) (x : V) :
  py_dict key (xs ++ [x]) = <[key x := x]> (py_dict key xs).
Proof. unfold py_dict. rewrite fold_left_app. reflexivity. Qed.

Lemma py_dict_lookup {V : Type} (key : V -> Z) (xs : list V) (k : Z) :
  py_dict key xs !! k = last (filter (fun x => key x = k) xs).
Proof.
  induction xs as [| x xs IH] using rev_ind.
  - reflexivity.
  - rewrite py_dict_snoc, lookup_insert, filter_app, filter_cons, filter_nil.
    destruct (decide (key x = k)) as [E | E].
    + rewrite last_snoc. reflexivity.
    + rewrite app_nil_r. exact IH.
Qed.

Lemma py_dict_present {V : Type} (key : V -> Z) (xs : list V) (k : Z) :
  In k (map key xs) -> is_Some (py_dict key xs !! k).
Proof.
  intros H. rewrite py_dict_lookup. apply last_is_Some.
  apply in_map_iff in H. destruct H as (x & Hx & Hin).
  intros E. apply (filter_nil_not_elem_of _ _ x E Hx).
  apply list_elem_of_In. exact Hin.
Qed.

Lemma py_dict_absent {V : Type} (key : V -> Z) (xs : list V) (k : Z) :
  ~ In k (map key xs) -> py_dict key xs !! k = None.
Proof.
  intros H. rewrite py_dict_lookup. apply last_None.
  destruct (filter (fun x => key x = k) xs) as [| y l] eqn:E; [reflexivity |].
  exfalso. apply H.
  assert (Hy : y ∈ filter (fun x => key x = k) xs) by (rewrite E; left).
  apply list_elem_of_filter in Hy. destruct Hy as [Hk Hy].
  apply in_map_iff. exists y. split; [exact Hk |]. apply list_elem_of_In. exact Hy.
Qed.

(** Looking a key up in [{key(x): x for x in xs}] gives the last element
    of [xs] with that key; the lookup fails exactly for the keys of no
    element. *)
Theorem py_dict_lookup_last {V : Type} (key : V -> Z) (xs : list V) (k : Z) :
  py_dict key xs !! k = last (filter (fun x => key x = k) xs) /\
  (is_Some (py_dict key xs !! k) <-> In k (map key xs)).
Proof.
  split; [apply py_dict_lookup |]. split; [| apply py_dict_present].
  intros [v Hv]. destruct (in_dec Z.eq_dec k (map key xs)) as [Hin | Hout]; [exact Hin |].
  rewrite (py_dict_absent key xs k Hout) in Hv. discriminate.
Qed.

(** ** [_ParticipantsIter._init] on small groups and single entities *)

Section ParticipantsOther.

Context {C : Type}.
Variable get_display_name : User -> string.
Variable h : Client C.

Let init := _ParticipantsIter._init get_display_name.

(** The participant attached to an item is one of [all], and it is the
    item's own. *)
Let attached (all : list ChannelParticipant) (u : User) : Prop :=
  exists p, In p all /\ participant u = SetTo p /\ user_id p = id u.

Lemma chat_loop_all (all ps : list ChannelParticipant) (users : gmap Z User)
  (acc : list User) :
  (forall k u, users !! k = Some u -> id u = k) ->
  (forall p, In p ps -> is_Some (users !! user_id p)) ->
  (forall p, In p ps -> In p all) ->
  Forall (attached all) acc ->
  exists acc',
    _ParticipantsIter.chat_loop get_display_name _ParticipantsIter.MatchAll users ps acc
      = (acc', Ok tt) /\
    map id acc' = map id acc ++ map user_id ps /\
    Forall (attached all) acc'.
Proof.
  revert users acc. induction ps as [| p rest IH]; intros users acc Hkey Hpres Hall Hacc.
  - exists acc. simpl. rewrite app_nil_r. auto.
  - destruct (Hpres p (or_introl eq_refl)) as [user Hu].
    cbn [_ParticipantsIter.chat_loop]. rewrite Hu.
    cbn [_ParticipantsIter.call_filter_entity].
    set (user' := with_participant user (SetTo p)).
    set (swap := fun u : User => if id u =? user_id p then user' else u).
    assert (Hid : id user' = user_id p) by (apply Hkey in Hu; exact Hu).
    assert (Hat : attached all user').
    { exists p. split; [apply Hall; left; reflexivity |]. split; [reflexivity |].
      symmetry. exact Hid. }
    destruct (IH (<[user_id p := user']> users) (map swap acc ++ [user'])) as (acc' & E & Hids & Hf).
    + intros k u. rewrite lookup_insert.
      destruct (decide (user_id p = k)) as [<- | _]; [| apply Hkey].
      intros [= <-]. exact Hid.
    + intros q Hq. rewrite lookup_insert.
      destruct (decide (user_id p = user_id q)); [eauto | apply Hpres; right; exact Hq].
    + intros q Hq. apply Hall. right. exact Hq.
    + apply Forall_app. split; [| constructor; [exact Hat | constructor]].
      apply Forall_forall. intros u Hu'. apply list_elem_of_In, in_map_iff in Hu'.
      destruct Hu' as (v & <- & Hv). unfold swap.
      destruct (id v =? user_id p); [exact Hat |].
      rewrite Forall_forall in Hacc. apply Hacc. apply list_elem_of_In. exact Hv.
    + exists acc'. split; [exact E |]. split; [| exact Hf].
      rewrite Hids, map_app, map_map. cbn [map]. rewrite Hid, <- app_assoc. cbn [app].
      f_equal. apply map_ext. intros u. unfold swap.
      destruct (Z.eqb_spec (id u) (user_id p)) as [-> | _]; [exact Hid | reflexivity].
Qed.

(** A small group whose response names a user for every participant:
    [_init] asks for the entity and the full chat, puts one item per
    participant in the buffer, in the order of the response and with the
    participant attached, sets [total] to their number and returns
    [True]; [filter] and [aggressive] play no part. *)
Theorem init_chat_lists_participants (entity : Entity) (filter : FilterArg)
  (aggressive : bool) (s : _ParticipantsIter.Iter) (c c1 c2 : C) (cid : Z)
  (full : ChatFull) (ps : list ChannelParticipant) :
  h _ (get_input_entity entity) c = (c1, Ok (InputPeerChat cid)) ->
  h _ (GetFullChatRequest cid) c1 = (c2, Ok full) ->
  chat_participants full = ChatParticipants ps ->
  (forall p, In p ps -> In (user_id p) (map id (chat_users full))) ->
  exists s' items,
    run h (init entity filter "" aggressive s) c =
      (c2, [MkCall (get_input_entity entity); MkCall (GetFullChatRequest cid)],
       (s', Ok true)) /\
    _ParticipantsIter.buffer s' = _ParticipantsIter.buffer s ++ items /\
    map id items = map user_id ps /\
    Forall (fun u => exists p, In p ps /\ participant u = SetTo p /\ user_id p = id u) items /\
    _ParticipantsIter.total s' = Some (Z.of_nat (length ps)) /\
    _ParticipantsIter.requests s' = [].
Proof.
  intros H1 H2 Hps Hall. unfold init, _ParticipantsIter._init.
  rewrite run_bind, run_await, H1.
  cbn -[run]. rewrite run_vis, H2. cbn -[_ParticipantsIter.chat_loop py_dict].
  rewrite Hps. cbn -[_ParticipantsIter.chat_loop py_dict].
  destruct (chat_loop_all ps ps (py_dict id (chat_users full)) []) as (acc' & E & Hids & Hf).
  - apply py_dict_key.
  - intros p Hp. apply py_dict_present. apply Hall. exact Hp.
  - auto.
  - constructor.
  - rewrite E. cbn. do 2 eexists. split; [reflexivity |]. cbn. repeat split; auto.
Qed.


Lemma chat_loop_missing (ps : list ChannelParticipant) (users : gmap Z User)
  (acc : list User) :
  (exists p, In p ps /\ users !! user_id p = None) ->
  exists acc',
    _ParticipantsIter.chat_loop get_display_name _ParticipantsIter.MatchAll users ps acc
      = (acc', Err KeyError).
Proof.
  revert users acc. induction ps as [| p rest IH]; intros users acc (q & Hq & Hnone).
  - destruct Hq.
  - cbn [_ParticipantsIter.chat_loop].
    destruct (users !! user_id p) as [user |] eqn:Hu; [| eauto].
    cbn [_ParticipantsIter.call_filter_entity].
    apply IH. exists q. destruct Hq as [<- | Hq]; [congruence |].
    split; [exact Hq |]. rewrite lookup_insert_ne; [exact Hnone | congruence].
Qed.

(** A small group whose response lacks the user of some participant:
    [_init] raises [KeyError], after the same two calls and with [total]
    already set. *)
Theorem init_chat_missing_user_raises (entity : Entity) (filter : FilterArg)
  (aggressive : bool) (s : _ParticipantsIter.Iter) (c c1 c2 : C) (cid : Z)
  (full : ChatFull) (ps : list ChannelParticipant) (p : ChannelParticipant) :
  h _ (get_input_entity entity) c = (c1, Ok (InputPeerChat cid)) ->
  h _ (GetFullChatRequest cid) c1 = (c2, Ok full) ->
  chat_participants full = ChatParticipants ps ->
  In p ps -> ~ In (user_id p) (map id (chat_users full)) ->
  exists s',
    run h (init entity filter "" aggressive s) c =
      (c2, [MkCall (get_input_entity entity); MkCall (GetFullChatRequest cid)],
       (s', Err KeyError)) /\
    _ParticipantsIter.total s' = Some (Z.of_nat (length ps)).
Proof.
  intros H1 H2 Hps Hp Hmiss. unfold init, _ParticipantsIter._init.
  rewrite run_bind, run_await, H1.
  cbn -[run]. rewrite run_vis, H2. cbn -[_ParticipantsIter.chat_loop py_dict].
  rewrite Hps. cbn -[_ParticipantsIter.chat_loop py_dict].
  destruct (chat_loop_missing ps (py_dict id (chat_users full)) []) as (acc' & E).
  { exists p. split; [exact Hp |]. apply py_dict_absent. exact Hmiss. }
  rewrite E. cbn. eexists. split; reflexivity.
Qed.

(** A small group whose participants are hidden: [_init] raises
    [StopAsyncIteration] with [total] 0 and the buffer as it was. *)
Theorem init_chat_forbidden (entity : Entity) (filter : FilterArg) (search : string)
  (aggressive : bool) (s : _ParticipantsIter.Iter) (c c1 c2 : C) (cid : Z)
  (full : ChatFull) :
  h _ (get_input_entity entity) c = (c1, Ok (InputPeerChat cid)) ->
  h _ (GetFullChatRequest cid) c1 = (c2, Ok full) ->
  chat_participants full = ChatParticipantsForbidden ->
  exists s',
    run h (init entity filter search aggressive s) c =
      (c2, [MkCall (get_input_entity entity); MkCall (GetFullChatRequest cid)],
       (s', Err StopAsyncIteration)) /\
    _ParticipantsIter.total s' = Some 0 /\
    _ParticipantsIter.buffer s' = _ParticipantsIter.buffer s.
Proof.
  intros H1 H2 Hps. unfold init, _ParticipantsIter._init.
  rewrite run_bind, run_await, H1.
  cbn -[run]. rewrite run_vis, H2. cbn. rewrite Hps. cbn.
  eexists. split; [reflexivity |]. split; reflexivity.
Qed.

(** The predicate [_init] stores for a target that is not a channel. *)
Let stored (search : string) : _ParticipantsIter.FilterEntity :=
  if str_truthy search then _ParticipantsIter.MatchSearch (lower search)
  else _ParticipantsIter.MatchAll.

(** A single entity (a user, or oneself).  With limit 0 the entity is not
    even fetched; otherwise it is fetched once and put in the buffer, with
    its participant set to [None], if it passes the filter; an exception
    of the filter is the exception of [_init].  [total] is 1 in all
    cases. *)
Theorem init_single_entity (entity : Entity) (filter : FilterArg) (search : string)
  (aggressive : bool) (s : _ParticipantsIter.Iter) (c c1 c2 : C) (p : InputPeer)
  (user : User) :
  h _ (get_input_entity entity) c = (c1, Ok p) ->
  h _ (get_entity p) c1 = (c2, Ok user) ->
  match p with InputPeerChannel _ _ | InputPeerChat _ => False | _ => True end ->
  exists s',
    _ParticipantsIter.total s' = Some 1 /\
    _ParticipantsIter.filter_entity s' = stored search /\
    if limit_is0 (_ParticipantsIter.limit s) then
      run h (init entity filter search aggressive s) c =
        (c1, [MkCall (get_input_entity entity)], (s', Ok true)) /\
      _ParticipantsIter.buffer s' = _ParticipantsIter.buffer s
    else
      match _ParticipantsIter.call_filter_entity get_display_name (stored search) user with
      | Ok passes =>
        run h (init entity filter search aggressive s) c =
          (c2, [MkCall (get_input_entity entity); MkCall (get_entity p)], (s', Ok true)) /\
        _ParticipantsIter.buffer s' =
          _ParticipantsIter.buffer s ++
          (if passes then [with_participant user SetNone] else [])
      | Err e =>
        run h (init entity filter search aggressive s) c =
          (c2, [MkCall (get_input_entity entity); MkCall (get_entity p)], (s', Err e)) /\
        _ParticipantsIter.buffer s' = _ParticipantsIter.buffer s
      end.
Proof.
  intros H1 H2 Hp. unfold init, _ParticipantsIter._init, stored.
  rewrite run_bind, run_await, H1.
  destruct (str_truthy search) eqn:Es;
    (destruct p as [? ? | ? | uid hash |]; try contradiction);
    cbn -[run _ParticipantsIter.call_filter_entity]; rewrite ?orb_true_r;
    cbn -[_ParticipantsIter.call_filter_entity];
    (destruct (limit_is0 (_ParticipantsIter.limit s));
     cbn -[_ParticipantsIter.call_filter_entity];
     [ eexists; split; [| split; [| split; [reflexivity |]]]; reflexivity |]);
    rewrite H2; cbn -[_ParticipantsIter.call_filter_entity];
    match goal with
    | |- context [_ParticipantsIter.call_filter_entity ?g ?f ?u] =>
      destruct (_ParticipantsIter.call_filter_entity g f u) as [[|] | e]
    end; cbn; rewrite ?app_nil_r;
    (eexists; split; [| split; [| split; [reflexivity |]]]; reflexivity).
Qed.

(** For a target that is not a channel the [filter] and [aggressive]
    arguments change nothing: [_init] makes the same calls and leaves the
    same iterator. *)
Theorem init_ignores_filter_outside_channels (entity : Entity) (f1 f2 : FilterArg)
  (search : string) (a1 a2 : bool) (s : _ParticipantsIter.Iter) (c c1 : C) (p : InputPeer) :
  h _ (get_input_entity entity) c = (c1, Ok p) ->
  is_InputPeerChannel p = false ->
  run h (init entity f1 search a1 s) c = run h (init entity f2 search a2 s) c.
Proof.
  intros H1 Hp. unfold init, _ParticipantsIter._init.
  rewrite !run_bind, !run_await, H1.
  destruct p; try discriminate; cbn -[run]; rewrite !orb_true_r; reflexivity.
Qed.

End ParticipantsOther.

Lemma init_chat_lists_participants_witness :
  (forall p, In p [member 1; member 2] -> In (user_id p) (map id [alice; bob])) /\
  exists s' items,
    run scripted
      (_ParticipantsIter._init first_name_only (EntityName "friends") FilterNone "" false
         (new_participants_iter Inf)) small_group =
      (small_group,
       [MkCall (get_input_entity (EntityName "friends")); MkCall (GetFullChatRequest 12)],
       (s', Ok true)) /\
    _ParticipantsIter.buffer s' = items /\
    map id items = [1; 2] /\
    _ParticipantsIter.total s' = Some 2.
Proof.
  assert (H : forall p, In p [member 1; member 2] -> In (user_id p) (map id [alice; bob])).
  { intros p [<- | [<- | []]]; simpl; auto. }
  split; [exact H |].
  destruct (init_chat_lists_participants first_name_only scripted (EntityName "friends")
              FilterNone false (new_participants_iter Inf) small_group small_group
              small_group 12 (sc_chat small_group) [member 1; member 2]
              eq_refl eq_refl eq_refl H)
    as (s' & items & E1 & E2 & E3 & _ & E5 & _).
  exists s', items. repeat split; assumption.
Defined.

Lemma init_chat_missing_user_raises_witness :
  In (member 3) [member 1; member 3] /\
  ~ In (user_id (member 3)) (map id [alice; bob]) /\
  exists s',
    run scripted
      (_ParticipantsIter._init first_name_only (EntityName "friends") FilterNone "" false
         (new_participants_iter Inf)) broken_group =
      (broken_group,
       [MkCall (get_input_entity (EntityName "friends")); MkCall (GetFullChatRequest 12)],
       (s', Err KeyError)) /\
    _ParticipantsIter.total s' = Some 2.
Proof.
  assert (H1 : In (member 3) [member 1; member 3]) by (right; left; reflexivity).
  assert (H2 : ~ In (user_id (member 3)) (map id [alice; bob])).
  { simpl. intros [H | [H | []]]; discriminate H. }
  split; [exact H1 |]. split; [exact H2 |].
  exact (init_chat_missing_user_raises first_name_only scripted (EntityName "friends")
           FilterNone false (new_participants_iter Inf) broken_group broken_group
           broken_group 12 (sc_chat broken_group) [member 1; member 3] (member 3)
           eq_refl eq_refl eq_refl H1 H2).
Defined.

Lemma init_chat_forbidden_witness :
  exists s',
    run scripted
      (_ParticipantsIter._init first_name_only (EntityName "friends") FilterNone "al" false
         (new_participants_iter Inf)) hidden_group =
      (hidden_group,
       [MkCall (get_input_entity (EntityName "friends")); MkCall (GetFullChatRequest 12)],
       (s', Err StopAsyncIteration)) /\
    _ParticipantsIter.total s' = Some 0 /\
    _ParticipantsIter.buffer s' = [].
Proof.
  exact (init_chat_forbidden first_name_only scripted (EntityName "friends")
           FilterNone "al" false (new_participants_iter Inf) hidden_group hidden_group
           hidden_group 12 empty_chat eq_refl eq_refl eq_refl).
Defined.

Lemma init_single_entity_witness :
  lower E_acute = e_acute /\
  exists s',
    _ParticipantsIter.total s' = Some 1 /\
    _ParticipantsIter.filter_entity s' = _ParticipantsIter.MatchSearch e_acute /\
    run scripted
      (_ParticipantsIter._init first_name_only (EntityName "emile_w") FilterNone E_acute false
         (new_participants_iter Inf)) one_latin_user =
      (one_latin_user,
       [MkCall (get_input_entity (EntityName "emile_w")); MkCall (get_entity (InputPeerUser 4 40))],
       (s', Ok true)) /\
    _ParticipantsIter.buffer s' = [with_participant emile SetNone].
Proof.
  split; [reflexivity |].
  exact (init_single_entity first_name_only scripted (EntityName "emile_w") FilterNone E_acute
           false (new_participants_iter Inf) one_latin_user one_latin_user one_latin_user
           (InputPeerUser 4 40) emile eq_refl eq_refl I).
Defined.

Lemma init_ignores_filter_outside_channels_witness :
  is_InputPeerChannel (InputPeerChat 12) = false /\
  run scripted
    (_ParticipantsIter._init first_name_only (EntityName "friends")
       (FilterType AdminsClass) "al" true (new_participants_iter Inf)) small_group =
  run scripted
    (_ParticipantsIter._init first_name_only (EntityName "friends")
       FilterNone "al" false (new_participants_iter Inf)) small_group.
Proof.
  split; [reflexivity |].
  exact (init_ignores_filter_outside_channels first_name_only scripted
           (EntityName "friends") (FilterType AdminsClass) FilterNone "al" true false
           (new_participants_iter Inf) small_group small_group (InputPeerChat 12)
           eq_refl eq_refl).
Defined.

(** ** [_ParticipantsIter._load_next_chunk]: requests, offsets and the seen-set *)

Section ParticipantsChunk.

Context {C : Type}.
Variable get_display_name : User -> string.
Variable h : Client C.

Let init := _ParticipantsIter._init get_display_name.
Let load := _ParticipantsIter._load_next_chunk get_display_name.

(** The batch a chunk load sends: the requests, the first with its limit
    recomputed. *)
Let outgoing (s : _ParticipantsIter.Iter) : list GetParticipantsRequest :=
  alter (fun r => _ParticipantsIter.with_limit r
           (limit_sub_min (_ParticipantsIter.limit s) (req_offset r)
              _MAX_PARTICIPANTS_CHUNK_SIZE))
        0%nat (_ParticipantsIter.requests s).

Lemma channel_loop_keeps (users : gmap Z User) (ps : list ChannelParticipant)
  (s s' : _ParticipantsIter.Iter) (r : Result unit) :
  _ParticipantsIter.channel_loop get_display_name users ps s = (s', r) ->
  _ParticipantsIter.requests s' = _ParticipantsIter.requests s /\
  _ParticipantsIter.limit s' = _ParticipantsIter.limit s.
Proof.
  revert s. induction ps as [| p rest IH]; intros s Hrun; simpl in Hrun.
  - inversion Hrun; auto.
  - destruct (users !! user_id p) as [user |]; [| inversion Hrun; auto].
    destruct (_ParticipantsIter.call_filter_entity get_display_name
                (_ParticipantsIter.filter_entity s) user) as [[|] | e];
      [| apply IH; exact Hrun | inversion Hrun; auto].
    destruct (decide (id user ∈ _ParticipantsIter.seen s)); [apply IH; exact Hrun |].
    apply IH in Hrun. exact Hrun.
Qed.

Lemma results_loop_requests (results : list ChannelParticipants) (n : nat)
  (front back : list GetParticipantsRequest) (s s' : _ParticipantsIter.Iter) :
  _ParticipantsIter.requests s = front ++ back -> length front = n ->
  _ParticipantsIter.results_loop get_display_name results n s = (s', Ok tt) ->
  _ParticipantsIter.requests s' = omap advance (zip front (take n results)) ++ back.
Proof.
  revert front back s. induction n as [| i IH]; intros front back s Hreq Hlen Hrun.
  - destruct front; [| discriminate]. simpl in Hrun. inversion Hrun; subst.
    rewrite Hreq. reflexivity.
  - destruct front as [| r0 front0] using rev_ind; [discriminate |]. clear IHfront0.
    rewrite length_app in Hlen. simpl in Hlen.
    assert (Hl : length front0 = i) by lia.
    rewrite <- app_assoc in Hreq. simpl in Hreq.
    cbn [_ParticipantsIter.results_loop] in Hrun.
    destruct (results !! i) as [part |] eqn:Ei; [| discriminate].
    assert (Hi : (i < length results)%nat) by (eapply lookup_lt_Some; eauto).
    rewrite (take_S_r results i part Ei).
    rewrite zip_with_app by (rewrite length_take_le by lia; exact Hl).
    rewrite omap_app, <- app_assoc.
    assert (Hone : omap advance (zip [r0] [part]) =
                   match users part with
                   | [] => []
                   | _ => [_ParticipantsIter.with_offset r0
                             (req_offset r0 + Z.of_nat (length (participants part)))]
                   end).
    { unfold advance. simpl. destruct (users part); reflexivity. }
    rewrite Hone.
    destruct (users part) as [| u0 us] eqn:Eu.
    + cbn. apply (IH front0 back) in Hrun; [exact Hrun | | exact Hl].
      cbn. rewrite Hreq, delete_take_drop.
      rewrite take_app_length' by (symmetry; exact Hl).
      replace (S i) with (length front0 + 1)%nat by lia.
      rewrite <- drop_drop, drop_app_length. reflexivity.
    + match type of Hrun with
      | context [_ParticipantsIter.channel_loop _ ?d ?ps ?s0] =>
        destruct (_ParticipantsIter.channel_loop get_display_name d ps s0)
          as [s1 [[] | e]] eqn:Ec; [| discriminate]
      end.
      apply channel_loop_keeps in Ec. destruct Ec as [Ec _]. cbn in Ec.
      apply (IH front0 (_ParticipantsIter.with_offset r0
                          (req_offset r0 + Z.of_nat (length (participants part))) :: back))
        in Hrun; [| | exact Hl].
      * rewrite Hrun. cbn. reflexivity.
      * rewrite Ec, Hreq. rewrite alter_app_r_alt by lia.
        replace (i - length front0)%nat with 0%nat by lia. reflexivity.
Qed.

(** A chunk load whose batch is answered, with one response per request,
    and goes through: each request whose response has no users is dropped,
    each other request has its offset moved on by the number of
    participants of its response, and the order is kept.  One batch was
    sent, and the load does not return [True]. *)
Theorem load_advances_or_drops (s s' : _ParticipantsIter.Iter) (c c1 c' : C)
  (r0 : GetParticipantsRequest) (rs : list GetParticipantsRequest)
  (results : list ChannelParticipants) (t : list Call) (b : bool) :
  _ParticipantsIter.requests s = r0 :: rs ->
  gt_limit (req_offset r0) (_ParticipantsIter.limit s) = false ->
  h _ (Batch (outgoing s)) c = (c1, Ok results) ->
  length results = length (outgoing s) ->
  run h (load s) c = (c', t, (s', Ok b)) ->
  _ParticipantsIter.requests s' = omap advance (zip (outgoing s) results) /\
  t = [MkCall (Batch (outgoing s))] /\ b = false /\ c' = c1.
Proof.
  intros Hreq Hgt Hh Hlen Hrun. unfold load, _ParticipantsIter._load_next_chunk in Hrun.
  cbn -[run] in Hrun. rewrite Hreq in Hrun. cbn -[run] in Hrun. rewrite Hgt in Hrun.
  cbn -[run] in Hrun. fold (outgoing s) in Hrun. rewrite run_vis, Hh in Hrun.
  cbn -[_ParticipantsIter.results_loop] in Hrun.
  match type of Hrun with
  | context [_ParticipantsIter.results_loop _ ?a ?n ?s0] =>
    destruct (_ParticipantsIter.results_loop get_display_name a n s0)
      as [s1 [[] | e]] eqn:El; cbn in Hrun; [| discriminate]
  end.
  inversion Hrun; subst. repeat split.
  eapply (results_loop_requests _ _ (outgoing s) []) in El;
    [| cbn; rewrite app_nil_r; reflexivity | reflexivity].
  rewrite El, app_nil_r. rewrite take_ge by lia. reflexivity.
Qed.

Lemma results_loop_all_empty (results : list ChannelParticipants) (n : nat)
  (front back : list GetParticipantsRequest) (s : _ParticipantsIter.Iter) :
  Forall (fun p => users p = []) results -> (n <= length results)%nat ->
  _ParticipantsIter.requests s = front ++ back -> length front = n ->
  _ParticipantsIter.results_loop get_display_name results n s
    = (_ParticipantsIter.set_requests back s, Ok tt).
Proof.
  intros Hall. revert front back s. induction n as [| i IH]; intros front back s Hn Hreq Hlen.
  - destruct front; [| discriminate]. simpl in Hreq |- *. rewrite <- Hreq.
    destruct s; reflexivity.
  - destruct front as [| r0 front0] using rev_ind; [discriminate |]. clear IHfront0.
    rewrite length_app in Hlen. simpl in Hlen.
    assert (Hl : length front0 = i) by lia.
    rewrite <- app_assoc in Hreq. simpl in Hreq.
    cbn [_ParticipantsIter.results_loop].
    destruct (lookup_lt_is_Some_2 results i) as [part Ei]; [lia |].
    rewrite Ei.
    assert (Eu : users part = []).
    { rewrite Forall_forall in Hall. apply Hall. eapply list_elem_of_lookup_2; eauto. }
    rewrite Eu. rewrite (IH front0 back); [reflexivity | lia | | exact Hl].
    cbn. rewrite Hreq, delete_take_drop.
    rewrite take_app_length' by (symmetry; exact Hl).
    replace (S i) with (length front0 + 1)%nat by lia.
    rewrite <- drop_drop, drop_app_length. reflexivity.
Qed.

(** A batch answered with no users at all ends the enumeration: the load
    drops every request and touches neither the buffer nor the seen-set,
    and the load after it returns [True] without calling the client. *)
Theorem load_all_empty_exhausts (s : _ParticipantsIter.Iter) (c c1 : C)
  (r0 : GetParticipantsRequest) (rs : list GetParticipantsRequest)
  (results : list ChannelParticipants) :
  _ParticipantsIter.requests s = r0 :: rs ->
  gt_limit (req_offset r0) (_ParticipantsIter.limit s) = false ->
  h _ (Batch (outgoing s)) c = (c1, Ok results) ->
  length results = length (outgoing s) ->
  Forall (fun p => users p = []) results ->
  exists s',
    run h (load s) c = (c1, [MkCall (Batch (outgoing s))], (s', Ok false)) /\
    _ParticipantsIter.requests s' = [] /\
    _ParticipantsIter.buffer s' = _ParticipantsIter.buffer s /\
    _ParticipantsIter.seen s' = _ParticipantsIter.seen s /\
    forall c2, run h (load s') c2 = (c2, [], (s', Ok true)).
Proof.
  intros Hreq Hgt Hh Hlen Hall. unfold load, _ParticipantsIter._load_next_chunk.
  cbn -[run]. rewrite Hreq. cbn -[run]. rewrite Hgt.
  cbn -[run]. fold (outgoing s). rewrite run_vis, Hh.
  cbn -[_ParticipantsIter.results_loop].
  rewrite (results_loop_all_empty results (length (outgoing s)) (outgoing s) []
             (_ParticipantsIter.set_requests (outgoing s) s) Hall).
  - cbn. eexists. split; [reflexivity |]. cbn. repeat split.
  - lia.
  - cbn. rewrite app_nil_r. reflexivity.
  - reflexivity.
Qed.

(** A batch answered with fewer responses than requests: the load raises
    [IndexError] before it looks at any response; buffer and seen-set are
    as they were. *)
Theorem load_short_reply_raises (s : _ParticipantsIter.Iter) (c c1 : C)
  (r0 : GetParticipantsRequest) (rs : list GetParticipantsRequest)
  (results : list ChannelParticipants) :
  _ParticipantsIter.requests s = r0 :: rs ->
  gt_limit (req_offset r0) (_ParticipantsIter.limit s) = false ->
  h _ (Batch (outgoing s)) c = (c1, Ok results) ->
  (length results < length (outgoing s))%nat ->
  exists s',
    run h (load s) c = (c1, [MkCall (Batch (outgoing s))], (s', Err IndexError)) /\
    _ParticipantsIter.requests s' = outgoing s /\
    _ParticipantsIter.buffer s' = _ParticipantsIter.buffer s /\
    _ParticipantsIter.seen s' = _ParticipantsIter.seen s.
Proof.
  intros Hreq Hgt Hh Hlen. unfold load, _ParticipantsIter._load_next_chunk.
  cbn -[run]. rewrite Hreq. cbn -[run]. rewrite Hgt.
  cbn -[run]. fold (outgoing s). rewrite run_vis, Hh.
  assert (Hn : exists i, length (outgoing s) = S i /\ (length results <= i)%nat).
  { destruct (length (outgoing s)) as [| i] eqn:E; [lia |]. exists i. split; [reflexivity | lia]. }
  destruct Hn as (i & Hi & Hle). rewrite Hi.
  cbn [_ParticipantsIter.results_loop pure_step bind pbind].
  rewrite (lookup_ge_None_2 results i) by lia.
  cbn. eexists. split; [reflexivity |]. cbn. repeat split.
Qed.



(** What a step of the chunk code does to buffer and seen-set. *)
Let grows (s s' : _ParticipantsIter.Iter) : Prop :=
  exists new,
    _ParticipantsIter.buffer s' = _ParticipantsIter.buffer s ++ new /\
    _ParticipantsIter.seen s' = _ParticipantsIter.seen s ∪ list_to_set (map id new) /\
    Forall (fun u => exists p, participant u = SetTo p /\ user_id p = id u) new.

Lemma grows_same (s s' : _ParticipantsIter.Iter) :
  _ParticipantsIter.buffer s' = _ParticipantsIter.buffer s ->
  _ParticipantsIter.seen s' = _ParticipantsIter.seen s -> grows s s'.
Proof.
  intros Hb Hs. exists []. rewrite app_nil_r. split; [exact Hb |].
  split; [| constructor]. rewrite Hs. cbn [map].
  rewrite list_to_set_nil, union_empty_r_L. reflexivity.
Qed.

Lemma grows_trans (s1 s2 s3 : _ParticipantsIter.Iter) :
  grows s1 s2 -> grows s2 s3 -> grows s1 s3.
Proof.
  intros (n1 & B1 & S1 & F1) (n2 & B2 & S2 & F2). exists (n1 ++ n2).
  split; [rewrite B2, B1, app_assoc; reflexivity |]. split.
  - rewrite S2, S1, map_app, list_to_set_app_L, union_assoc_L. reflexivity.
  - apply Forall_app. split; assumption.
Qed.

Lemma channel_loop_grows (users : gmap Z User) (ps : list ChannelParticipant)
  (s s' : _ParticipantsIter.Iter) (r : Result unit) :
  (forall k u, users !! k = Some u -> id u = k) ->
  _ParticipantsIter.channel_loop get_display_name users ps s = (s', r) ->
  grows s s'.
Proof.
  intros Hkey. revert s. induction ps as [| p rest IH]; intros s Hrun; simpl in Hrun.
  - inversion Hrun; subst. apply grows_same; reflexivity.
  - destruct (users !! user_id p) as [user |] eqn:Eu;
      [| inversion Hrun; subst; apply grows_same; reflexivity].
    destruct (_ParticipantsIter.call_filter_entity get_display_name
                (_ParticipantsIter.filter_entity s) user) as [[|] | e];
      [| apply IH; exact Hrun | inversion Hrun; subst; apply grows_same; reflexivity].
    destruct (decide (id user ∈ _ParticipantsIter.seen s)); [apply IH; exact Hrun |].
    apply Hkey in Eu.
    eapply grows_trans; [| apply IH; exact Hrun].
    exists [with_participant user (SetTo p)]. split; [reflexivity |]. split.
    + cbn [_ParticipantsIter.seen _ParticipantsIter.set_buffer _ParticipantsIter.set_seen
           map id with_participant].
      rewrite list_to_set_cons, list_to_set_nil, union_empty_r_L, Eu.
      apply union_comm_L.
    + constructor; [| constructor]. exists p. split; [reflexivity | symmetry; exact Eu].
Qed.

Lemma results_loop_grows (results : list ChannelParticipants) (n : nat)
  (s s' : _ParticipantsIter.Iter) (r : Result unit) :
  _ParticipantsIter.results_loop get_display_name results n s = (s', r) ->
  grows s s'.
Proof.
  revert s. induction n as [| i IH]; intros s Hrun; simpl in Hrun.
  - inversion Hrun; subst. apply grows_same; reflexivity.
  - destruct (results !! i) as [part |];
      [| inversion Hrun; subst; apply grows_same; reflexivity].
    destruct (users part) as [| u0 us] eqn:Eus.
    + eapply grows_trans; [| apply IH; exact Hrun]. apply grows_same; reflexivity.
    + rewrite <- Eus in Hrun.
      match type of Hrun with
      | context [_ParticipantsIter.channel_loop _ ?d ?ps ?s0] =>
        destruct (_ParticipantsIter.channel_loop get_display_name d ps s0)
          as [s1 [[] | e]] eqn:Ec;
        apply channel_loop_grows in Ec; [| apply py_dict_key | | apply py_dict_key]
      end.
      * eapply grows_trans; [| apply IH; exact Hrun].
        eapply grows_trans; [| exact Ec]. apply grows_same; reflexivity.
      * inversion Hrun; subst.
        eapply grows_trans; [| exact Ec]. apply grows_same; reflexivity.
Qed.

(** Whatever the client answers and however the load ends, the buffer only
    gains items at its end, each carrying its own participant, and the
    seen-set becomes what it was plus the ids of exactly those items. *)
Theorem load_seen_is_old_plus_new (s : _ParticipantsIter.Iter) (c : C) :
  let s' := fst (snd (run h (load s) c)) in
  exists new,
    _ParticipantsIter.buffer s' = _ParticipantsIter.buffer s ++ new /\
    _ParticipantsIter.seen s' = _ParticipantsIter.seen s ∪ list_to_set (map id new) /\
    Forall (fun u => exists p, participant u = SetTo p /\ user_id p = id u) new.
Proof.
  cbv zeta. unfold load, _ParticipantsIter._load_next_chunk. cbn -[run].
  destruct (_ParticipantsIter.requests s) as [| r0 rs] eqn:Er.
  - cbn. apply grows_same; reflexivity.
  - cbn -[run]. destruct (gt_limit (req_offset r0) (_ParticipantsIter.limit s)).
    + cbn. apply grows_same; reflexivity.
    + cbn -[run]. rewrite run_vis.
      match goal with
      | |- context [h ?X ?e c] => destruct (h X e c) as [c1 [results | e']]
      end; cbn -[_ParticipantsIter.results_loop]; [| apply grows_same; reflexivity].
      match goal with
      | |- context [_ParticipantsIter.results_loop _ ?a ?b ?s0] =>
        destruct (_ParticipantsIter.results_loop get_display_name a b s0)
          as [s1 [[] | e']] eqn:El; apply results_loop_grows in El
      end; cbn; (eapply grows_trans; [| exact El]); apply grows_same; reflexivity.
Qed.

End ParticipantsChunk.

Lemma load_advances_or_drops_witness :
  let batch := [ _ParticipantsIter.first_request some_channel (ChannelParticipantsSearch "a");
                 _ParticipantsIter.first_request some_channel (ChannelParticipantsSearch "b") ] in
  let results := [ {| participants := [member 1; member 2]; users := [alice; bob] |};
                   {| participants := [member 2; member 1; member 3];
                      users := [bob; alice; carol] |} ] in
  let r := run scripted (_ParticipantsIter._load_next_chunk first_name_only aggressive_state)
             overlapping_channel in
  _ParticipantsIter.requests aggressive_state = batch /\
  scripted _ (Batch batch) overlapping_channel
    = (next_batch overlapping_channel, Ok results) /\
  snd (snd r) = Ok false /\
  _ParticipantsIter.requests (fst (snd r)) = omap advance (zip batch results) /\
  map req_offset (_ParticipantsIter.requests (fst (snd r))) = [2; 3].
Proof.
  intros batch results r.
  assert (E : r = (fst (fst r), snd (fst r), (fst (snd r), Ok false)))
    by (vm_compute; reflexivity).
  destruct (load_advances_or_drops first_name_only scripted aggressive_state
              (fst (snd r)) overlapping_channel (next_batch overlapping_channel)
              (fst (fst r))
              (_ParticipantsIter.first_request some_channel (ChannelParticipantsSearch "a"))
              [_ParticipantsIter.first_request some_channel (ChannelParticipantsSearch "b")]
              results (snd (fst r)) false
              eq_refl eq_refl eq_refl eq_refl E) as (H1 & _ & _ & _).
  split; [reflexivity |]. split; [reflexivity |]. split; [reflexivity |].
  split; [exact H1 | reflexivity].
Defined.

Lemma load_all_empty_exhausts_witness :
  let s := fst (snd (run scripted
                       (_ParticipantsIter._init first_name_only (EntityName "grp")
                          FilterNone "ab" true (new_participants_iter Inf))
                       silent_channel)) in
  Forall (fun p => users p = [])
    [ {| participants := []; users := [] |}; {| participants := []; users := [] |} ] /\
  exists s',
    snd (run scripted (_ParticipantsIter._load_next_chunk first_name_only s) silent_channel)
      = (s', Ok false) /\
    _ParticipantsIter.requests s' = [] /\
    _ParticipantsIter.buffer s' = [] /\
    forall c2, run scripted (_ParticipantsIter._load_next_chunk first_name_only s') c2
               = (c2, [], (s', Ok true)).
Proof.
  intros s.
  assert (Hall : Forall (fun p => users p = [])
            [ {| participants := []; users := [] |}; {| participants := []; users := [] |} ])
    by (repeat constructor).
  split; [exact Hall |].
  destruct (load_all_empty_exhausts first_name_only scripted s silent_channel
              (next_batch silent_channel) _ _ _ eq_refl eq_refl eq_refl eq_refl Hall)
    as (s' & E1 & E2 & E3 & _ & E5).
  exists s'. split; [rewrite E1; reflexivity |]. split; [exact E2 |].
  split; [exact E3 | exact E5].
Defined.

Lemma load_short_reply_raises_witness :
  let s := fst (snd (run scripted
                       (_ParticipantsIter._init first_name_only (EntityName "grp")
                          FilterNone "ab" true (new_participants_iter Inf))
                       short_channel)) in
  (length [ {| participants := [member 1]; users := [alice] |} ]
   < length (_ParticipantsIter.requests s))%nat /\
  exists s',
    snd (run scripted (_ParticipantsIter._load_next_chunk first_name_only s) short_channel)
      = (s', Err IndexError) /\
    _ParticipantsIter.buffer s' = [] /\
    _ParticipantsIter.seen s' = ∅.
Proof.
  intros s.
  assert (Hlt : (length [ {| participants := [member 1]; users := [alice] |} ]
                 < length (_ParticipantsIter.requests s))%nat) by (cbn; lia).
  split; [exact Hlt |].
  destruct (load_short_reply_raises first_name_only scripted s short_channel
              (next_batch short_channel) _ _ _ eq_refl eq_refl eq_refl Hlt)
    as (s' & E1 & _ & E3 & E4).
  exists s'. split; [rewrite E1; reflexivity |]. split; [exact E3 | exact E4].
Defined.


(** ** [_AdminLogIter]: what [_init] and a chunk load leave behind *)

Section AdminLogOutcome.

Context {C : Type}.
Variable get_peer_id : Peer -> Z.
Variable h : Client C.




(** What one [_AdminLogIter._load_next_chunk] does.  Without a request it
    raises [AttributeError] without a call and changes nothing.  Otherwise
    it sends the one request, with the limit [min(self.left, 100)].  If
    the call fails, the exception is the call's and only the limit of the
    request has changed.  If it answers, and the user of every event is in
    the answer's entity table (the wrapper looks it up), the load returns:
    channel, search, [min_id], filter and admins of the request are as
    before, [max_id] is the least id among the events of the answer (0 if
    none), and the buffer has grown by exactly one item for each event of
    the answer, in the order received: the item at position [i] wraps
    event [i], with its id, its user and the table of the answer, and
    every message of an edit or deletion has been finished with that table
    and [self.entity]. *)
Theorem admin_log_load_outcome (s : _AdminLogIter.Iter) (c : C) :
  match _AdminLogIter.request s with
  | None =>
    run h (_AdminLogIter._load_next_chunk get_peer_id s) c = (c, [], (s, Err AttributeError))
  | Some req =>
    exists sent,
      log_limit sent = match _AdminLogIter.left s with
                       | Fin n => Z.min n 100
                       | Inf => 100
                       end /\
      log_channel sent = log_channel req /\ q sent = q req /\
      min_id sent = min_id req /\ max_id sent = max_id req /\
      events_filter sent = events_filter req /\ admins sent = admins req /\
      match h _ (Invoke sent) c with
      | (c1, Err e) =>
        run h (_AdminLogIter._load_next_chunk get_peer_id s) c =
        (c1, [MkCall (Invoke sent)], (_AdminLogIter.set_request (Some sent) s, Err e))
      | (c1, Ok res) =>
        let ents := py_dict get_peer_id (log_users res ++ log_chats res) in
        Forall (fun ev => is_Some (ents !! ev_user_id ev)) (events res) ->
        exists s' done req' new,
          run h (_AdminLogIter._load_next_chunk get_peer_id s) c =
          (c1, [MkCall (Invoke sent)], (s', Ok done)) /\
          _AdminLogIter.limit s' = _AdminLogIter.limit s /\
          _AdminLogIter.left s' = _AdminLogIter.left s /\
          _AdminLogIter.total s' = _AdminLogIter.total s /\
          _AdminLogIter.entity s' = _AdminLogIter.entity s /\
          _AdminLogIter.request s' = Some req' /\
          log_channel req' = log_channel req /\ q req' = q req /\
          min_id req' = min_id req /\ events_filter req' = events_filter req /\
          admins req' = admins req /\ log_limit req' = log_limit sent /\
          max_id req' = min_default0 (map ev_id (events res)) /\
          (forall ev, ev ∈ events res -> max_id req' <= ev_id ev) /\
          _AdminLogIter.buffer s' = _AdminLogIter.buffer s ++ new /\
          length new = length (events res) /\
          forall (i : nat) (ev : ChannelAdminLogEvent), events res !! i = Some ev ->
            exists w, new !! i = Some w /\
              entities w = ents /\
              ev_id (original w) = ev_id ev /\
              ev_user_id (original w) = ev_user_id ev /\
              match ev_action ev, ev_action (original w) with
              | ChannelAdminLogEventActionEditMessage p n,
                ChannelAdminLogEventActionEditMessage p' n' =>
                msg_id p' = msg_id p /\ msg_id n' = msg_id n /\
                finished p' = Some (ents, _AdminLogIter.entity s) /\
                finished n' = Some (ents, _AdminLogIter.entity s)
              | ChannelAdminLogEventActionDeleteMessage m,
                ChannelAdminLogEventActionDeleteMessage m' =>
                msg_id m' = msg_id m /\
                finished m' = Some (ents, _AdminLogIter.entity s)
              | ChannelAdminLogEventActionOther k, ChannelAdminLogEventActionOther k' =>
                k' = k
              | _, _ => False
              end
      end
  end.
Proof.
  unfold _AdminLogIter._load_next_chunk. cbn -[run].
  destruct (_AdminLogIter.request s) as [req |] eqn:Er; [| reflexivity].
  exists (_AdminLogIter.with_limit req
            (limit_min (_AdminLogIter.left s) _MAX_ADMIN_LOG_CHUNK_SIZE)).
  split.
  { unfold limit_min, _MAX_ADMIN_LOG_CHUNK_SIZE. cbn.
    destruct (_AdminLogIter.left s); reflexivity. }
  do 6 (split; [reflexivity |]).
  cbn -[run]. rewrite run_vis.
  match goal with
  | |- context [h ?X ?e c] => destruct (h X e c) as [c1 [res | e']]
  end; [| reflexivity].
  intros _. set (ents := py_dict get_peer_id (log_users res ++ log_chats res)).
  assert (Hmin : forall ev, ev ∈ events res ->
                   min_default0 (map ev_id (events res)) <= ev_id ev).
  { intros ev Hev. apply list_elem_of_In in Hev.
    pose proof (min_default0_spec (map ev_id (events res))) as Hs.
    destruct (map ev_id (events res)) as [| x t] eqn:Em.
    - destruct (events res); [destruct Hev | discriminate].
    - apply Hs. rewrite <- Em. apply in_map, Hev. }
  assert (Hnew : forall (i : nat) (ev : ChannelAdminLogEvent),
            events res !! i = Some ev ->
            map (_AdminLogIter.wrap_event ents (_AdminLogIter.entity s)) (events res) !! i
            = Some (_AdminLogIter.wrap_event ents (_AdminLogIter.entity s) ev)).
  { intros i ev Hi. rewrite lookup_map, Hi. reflexivity. }
  match goal with
  | |- context [if ?b then ret true else ret false] => destruct b
  end; cbn;
    (do 4 eexists; split; [reflexivity |]; cbn;
     do 4 (split; [reflexivity |]); split; [reflexivity |]; cbn;
     do 6 (split; [reflexivity |]); split; [reflexivity |];
     split; [exact Hmin |]; split; [reflexivity |];
     split; [apply length_map |];
     intros i ev Hi; eexists; split; [apply Hnew, Hi |];
     cbn; do 3 (split; [reflexivity |]);
     destruct (ev_action ev); cbn; auto).
Qed.

End AdminLogOutcome.

Lemma admin_log_load_outcome_witness :
  Forall (fun ev => is_Some (py_dict peer_key [PeerUser alice] !! ev_user_id ev))
         (map event [9; 8; 7]) /\
  exists sent s' done req' new,
    run scripted (_AdminLogIter._load_next_chunk peer_key capped_log_state) two_pages
      = (next_log two_pages, [MkCall (Invoke sent)], (s', Ok done)) /\
    log_limit sent = Z.min 5000 100 /\
    _AdminLogIter.request s' = Some req' /\
    max_id req' = 7 /\
    _AdminLogIter.buffer s' = new /\ length new = 3%nat /\
    exists w, new !! 2%nat = Some w /\
      entities w = py_dict peer_key [PeerUser alice] /\ ev_id (original w) = 7.
Proof.
  assert (HF : Forall (fun ev => is_Some (py_dict peer_key [PeerUser alice] !! ev_user_id ev))
                 (map event [9; 8; 7]))
    by (repeat constructor; eexists; vm_compute; reflexivity).
  split; [exact HF |].
  pose proof (admin_log_load_outcome peer_key scripted capped_log_state two_pages) as H.
  assert (Erq : exists req, _AdminLogIter.request capped_log_state = Some req)
    by (eexists; vm_compute; reflexivity).
  destruct Erq as [req Erq]. rewrite Erq in H.
  destruct H as (sent & L & _ & _ & _ & _ & _ & _ & H).
  change (scripted _ (Invoke sent) two_pages)
    with (next_log two_pages, Ok (log_page [9; 8; 7])) in H.
  cbv beta iota zeta in H.
  destruct (H HF) as (s' & done & req' & new & R & _ & _ & _ & _ & Q & _ & _ & _ & _ & _
                      & _ & M & _ & B & Ln & N).
  destruct (N 2%nat (event 7) eq_refl) as (w & W1 & W2 & W3 & _).
  exists sent, s', done, req', new.
  split; [exact R |]. split; [exact L |]. split; [exact Q |]. split; [exact M |].
  split; [exact B |]. split; [exact Ln |].
  exists w. split; [exact W1 |]. split; [exact W2 | exact W3].
Defined.

(** ** The local filter on an entity with a handle *)

Lemma filter_entity_with_handle_witness :
  username Elodie = HandleStr "elodie_w" /\ "elodie_w"%string <> ""%string /\
  first_name_only Elodie = (E_acute ++ "lodie")%string /\
  _ParticipantsIter.call_filter_entity first_name_only
    (_ParticipantsIter.MatchSearch e_acute) Elodie = Ok true.
Proof.
  assert (H : "elodie_w"%string <> ""%string) by discriminate.
  split; [reflexivity |]. split; [exact H |]. split; [reflexivity |].
  exact (filter_entity_with_handle first_name_only e_acute "elodie_w" Elodie eq_refl H).
Defined.
